(** * Verification of the asking service, its breakdown tracker and the
      AI-service adaptor

    The development embeds, function by function, the parts of
    [AskingService] (service layer), [BreakdownBackgroundTracker] (the
    recurring poll loop) and [RubixAdaptor] (HTTP adaptor) that the
    specification speaks about, and proves or refutes the specification's
    statements over that embedding.

    Conventions.
    - JavaScript numbers used as indices or ids are integers ([Z]).
    - JavaScript strings are [string]; status strings are taken to be ASCII.
    - A function that can [throw] returns a [result].
    - Asynchronous code is cut at each [await]: the part of a job that runs
      between two suspension points is one atomic transition of a labelled
      state machine (single-threaded cooperative scheduling). *)

From Stdlib Require Import Ascii.
From stdpp Require Import gmap strings list sorting pretty.

Open Scope Z_scope.

(** ** Results of fallible code *)

Module Js.

(** A thrown [Error] (or the reason of a rejected promise) with its
    [message]. *)
Inductive Error : Type := mkError (message : string).

Definition message (e : Error) : string := let (m) := e in m.

#[global] Instance Error_eq_dec : EqDecision Error.
Proof. solve_decision. Defined.

Inductive result (A : Type) : Type :=
| Ok (a : A)
| Throw (e : Error).
Arguments Ok {A} a.
Arguments Throw {A} e.

Definition bind {A B} (r : result A) (k : A → result B) : result B :=
  match r with
  | Ok a => k a
  | Throw e => Throw e
  end.

(** [${n}] for an integer [n] in a template literal. *)
Definition showZ (n : Z) : string := pretty n.

(** [${s}] for a string that may be [undefined]. *)
Definition showOpt (s : option string) : string := default "undefined" s.

(** [String.prototype.toUpperCase] on ASCII text: the letters [a]..[z]
    move to [A]..[Z], every other character stays. *)
Definition upperChar (c : ascii) : ascii :=
  let n := nat_of_ascii c in
  if ((97 <=? n) && (n <=? 122))%nat then ascii_of_nat (n - 32) else c.

Fixpoint toUpperCase (s : string) : string :=
  match s with
  | EmptyString => EmptyString
  | String c s' => String (upperChar c) (toUpperCase s')
  end.

(** The line feed of a template literal's [\n]. *)
Definition nl : string := String "010"%char EmptyString.

(** [Array.prototype.slice(0, e)] for an integer [e]. *)
Definition slice0 {A} (l : list A) (e : Z) : list A :=
  let len := Z.of_nat (length l) in
  let k := if e <? 0 then Z.max (len + e) 0 else Z.min e len in
  take (Z.to_nat k) l.

(** [Array.prototype.forEach] with the index, threading the state the
    callback mutates. *)
Fixpoint forEachFrom {A St} (f : St → A → nat → St) (index : nat) (l : list A) (s : St) : St :=
  match l with
  | [] => s
  | a :: l' => forEachFrom f (S index) l' (f s a index)
  end.

Definition forEach {A St} (f : St → A → nat → St) (l : list A) (s : St) : St :=
  forEachFrom f 0%nat l s.

End Js.

Import Js.

#[export] Instance result_bind : MBind result := λ A B k r, Js.bind r k.
#[export] Instance result_ret : MRet result := @Ok.

(** ** CTE assembly: [constructCteSql] *)

Module Cte.

Record Step : Type := mkStep { cteName : string; summary : string; sql : string }.

(** The body of the [forEach] callback: [sql] is the accumulator, [len]
    is [slicedSteps.length]. *)
Definition emitStep (len : nat) (acc : string) (step : Step) (index : nat) : string :=
  if decide (Z.of_nat index = Z.of_nat len - 1) then
    (acc +:+ (nl +:+ "-- " +:+ summary step +:+ nl)) +:+ sql step
  else if decide (Z.of_nat index = Z.of_nat len - 2) then
    ((acc +:+ (cteName step +:+ " AS"))
       +:+ (nl +:+ "-- " +:+ summary step +:+ nl))
      +:+ ("(" +:+ sql step +:+ ")")
  else
    ((acc +:+ (cteName step +:+ " AS"))
       +:+ (nl +:+ "-- " +:+ summary step +:+ nl))
      +:+ ("(" +:+ sql step +:+ "),").

Definition constructCteSql (steps : list Step) (stepIndex : option Z) : result string :=
  match stepIndex with
  | Some i =>
      if decide (i < 0 ∨ i >= Z.of_nat (length steps))
      then Throw (mkError ("Invalid stepIndex: " +:+ showZ i))
      else Ok tt
  | None => Ok tt
  end;;
  let slicedSteps :=
    match stepIndex with
    | None => steps
    | Some i => slice0 steps (i + 1)
    end in
  match slicedSteps with
  | [only] => Ok ("-- " +:+ summary only +:+ nl +:+ sql only)
  | _ => Ok (forEach (emitStep (length slicedSteps)) slicedSteps "WITH ")
  end.

(** *** The shape the specification describes *)

(** [name AS], the comment line, then [(sql)] with or without the comma. *)
Definition wrapped (comma : bool) (s : Step) : string :=
  cteName s +:+ " AS" +:+ nl +:+ "-- " +:+ summary s +:+ nl
    +:+ "(" +:+ sql s +:+ ")" +:+ (if comma then "," else "").

(** The comment line, then the bare SQL of the last step. *)
Definition trailing (s : Step) : string :=
  nl +:+ "-- " +:+ summary s +:+ nl +:+ sql s.

Definition concatStr (l : list string) : string := foldr String.append "" l.

Definition withClause (init : list Step) (penult last : Step) : string :=
  "WITH " +:+ concatStr (wrapped true <$> init) +:+ wrapped false penult +:+ trailing last.

(** How many steps are emitted: [cutoff + 1], or all of them. *)
Definition emitted (steps : list Step) (stepIndex : option Z) : Z :=
  match stepIndex with
  | None => Z.of_nat (length steps)
  | Some i => i + 1
  end.

Definition validCutoff (steps : list Step) (stepIndex : option Z) : Prop :=
  match stepIndex with
  | None => True
  | Some i => 0 ≤ i < Z.of_nat (length steps)
  end.

(** The statement of the specification for lists of two steps or more,
    read literally: whatever the valid cutoff, a [WITH] clause comes out. *)
Definition multiStepClaim (steps : list Step) (stepIndex : option Z) : Prop :=
  (2 ≤ length steps)%nat → validCutoff steps stepIndex →
  ∃ out, constructCteSql steps stepIndex = Ok out ∧ String.prefix "WITH " out = true.

(** *** Sample steps *)

Definition stepA : Step := mkStep "a" "first" "SELECT 1".
Definition stepB : Step := mkStep "b" "second" "SELECT 2 FROM a".
Definition stepC : Step := mkStep "c" "third" "SELECT 3 FROM b".

End Cte.

(** ** The data model

    The record types of [@server/models/adaptor] and
    [../repositories/threadResponseRepository] are imported by the source
    files but not part of them. *)

(** Modelled from the spec: [AskResultStatus], the status enumeration of an
    ask-detail (breakdown) task.  At run time a status is the upper-case
    string of its name; [FINISHED], [FAILED] and [STOPPED] are the terminal
    ones, [UNDERSTANDING] the initial one.  The specification leaves the
    intermediate ones unnamed; of the names given to them here only that
    they are neither initial nor terminal is used. *)
Module AskResultStatus.
Definition UNDERSTANDING : string := "UNDERSTANDING".
Definition SEARCHING : string := "SEARCHING".
Definition PLANNING : string := "PLANNING".
Definition GENERATING : string := "GENERATING".
Definition CORRECTING : string := "CORRECTING".
Definition FINISHED : string := "FINISHED".
Definition FAILED : string := "FAILED".
Definition STOPPED : string := "STOPPED".

Definition values : list string :=
  [UNDERSTANDING; SEARCHING; PLANNING; GENERATING; CORRECTING; FINISHED; FAILED; STOPPED].
End AskResultStatus.

(** [enum ThreadResponseAnswerStatus] of the service. *)
Inductive ThreadResponseAnswerStatus : Type :=
| NOT_STARTED | FETCHING_DATA | PREPROCESSING | STREAMING | FINISHED | FAILED | INTERRUPTED.

#[export] Instance ThreadResponseAnswerStatus_eq_dec : EqDecision ThreadResponseAnswerStatus.
Proof. solve_decision. Defined.

(** Modelled from the spec: [ThreadResponseAdjustmentType], the type tag of
    an adjustment record (manual SQL override, or reasoning feedback). *)
Inductive ThreadResponseAdjustmentType : Type := APPLY_SQL | REASONING.

#[export] Instance ThreadResponseAdjustmentType_eq_dec : EqDecision ThreadResponseAdjustmentType.
Proof. solve_decision. Defined.

(** The error object of a result, [{ code, message, shortMessage }]. *)
Module RubixError.
Record t : Type := mk { code : string; message : string; shortMessage : string }.
#[global] Instance eq_dec : EqDecision t.
Proof. solve_decision. Defined.
End RubixError.

#[export] Instance Step_eq_dec : EqDecision Cte.Step.
Proof. solve_decision. Defined.

(** Modelled from the spec: the breakdown sub-record of a thread response,
    [{ queryId, status, error?, description?, steps? }]. *)
Module BreakdownDetail.
Record t : Type := mk {
  queryId : string;
  status : string;
  error : option RubixError.t;
  description : option string;
  steps : option (list Cte.Step);
}.
#[global] Instance eq_dec : EqDecision t.
Proof. solve_decision. Defined.
End BreakdownDetail.

(** Modelled from the spec: the text-answer sub-record of a thread response,
    [{ queryId?, status, content?, error?, numRowsUsedInLLM? }]. *)
Module AnswerDetail.
Record t : Type := mk {
  queryId : option string;
  status : option ThreadResponseAnswerStatus;
  content : option string;
  error : option RubixError.t;
  numRowsUsedInLLM : option Z;
}.
#[global] Instance eq_dec : EqDecision t.
Proof. solve_decision. Defined.

(** The object literal [{}], every property [undefined]. *)
Definition empty : t := mk None None None None None.
End AnswerDetail.

(** Modelled from the spec: the adjustment record of a thread response,
    [{ type, payload: { originalThreadResponseId, sql } }]. *)
Module Adjustment.
Record Payload : Type := mkPayload {
  originalThreadResponseId : option Z;
  sql : option string;
}.
Record t : Type := mk { type : ThreadResponseAdjustmentType; payload : Payload }.
#[global] Instance payload_eq_dec : EqDecision Payload.
Proof. solve_decision. Defined.
#[global] Instance eq_dec : EqDecision t.
Proof. solve_decision. Defined.
End Adjustment.

(** Modelled from the spec: a row of the thread-response table,
    [{ id, threadId, question, sql, askingTaskId, breakdownDetail?,
    answerDetail?, adjustment? }].  The chart sub-record plays no part in the
    functions embedded here and is left out. *)
Module ThreadResponse.
Record t : Type := mk {
  id : Z;
  threadId : Z;
  question : option string;
  sql : option string;
  askingTaskId : option Z;
  breakdownDetail : option BreakdownDetail.t;
  answerDetail : option AnswerDetail.t;
  adjustment : option Adjustment.t;
}.
#[global] Instance eq_dec : EqDecision t.
Proof. solve_decision. Defined.

(** A partial record, the argument of [createOne] and [updateOne]: a
    property that is absent is [None]. *)
Record Partial : Type := mkPartial {
  p_threadId : option Z;
  p_question : option (option string);
  p_sql : option (option string);
  p_askingTaskId : option (option Z);
  p_breakdownDetail : option BreakdownDetail.t;
  p_answerDetail : option AnswerDetail.t;
  p_adjustment : option Adjustment.t;
}.

Definition nothing : Partial := mkPartial None None None None None None None.

(** The row with the properties of the partial record written over it. *)
Definition patch (p : Partial) (r : t) : t :=
  {| id := id r;
     threadId := default (threadId r) (p_threadId p);
     question := default (question r) (p_question p);
     sql := default (sql r) (p_sql p);
     askingTaskId := default (askingTaskId r) (p_askingTaskId p);
     breakdownDetail := from_option Some (breakdownDetail r) (p_breakdownDetail p);
     answerDetail := from_option Some (answerDetail r) (p_answerDetail p);
     adjustment := from_option Some (adjustment r) (p_adjustment p) |}.

(** A new row: the properties given, every other column null (a missing
    [threadId], which no caller embedded here leaves out, reads 0). *)
Definition fresh (newId : Z) (p : Partial) : t :=
  {| id := newId;
     threadId := default 0 (p_threadId p);
     question := default None (p_question p);
     sql := default None (p_sql p);
     askingTaskId := default None (p_askingTaskId p);
     breakdownDetail := p_breakdownDetail p;
     answerDetail := p_answerDetail p;
     adjustment := p_adjustment p |}.
End ThreadResponse.

(** ** The thread-response repository *)

(** Modelled from the spec: [IThreadResponseRepository], the persistence
    collaborator, a row store with [findOneBy], [createOne] and [updateOne].
    The store keeps the table and the log of the writes it was asked to do, so
    that "no write" is a statement about the log. *)
Module Repo.

Inductive Write : Type :=
| Created (row : ThreadResponse.t)
| Updated (id : Z) (data : ThreadResponse.Partial).

Record Store : Type := mk { rows : list ThreadResponse.t; writes : list Write }.

(** [findOneBy({ id })]: the first row with that id, or [undefined]. *)
Definition findOneBy (id : Z) (st : Store) : option ThreadResponse.t :=
  List.find (λ r, bool_decide (ThreadResponse.id r = id)) (rows st).

(** The id an auto-increment column gives to the next row. *)
Definition nextId (st : Store) : Z :=
  1 + foldr Z.max 0 (ThreadResponse.id <$> rows st).

(** [createOne(data)]: appends the row and returns it. *)
Definition createOne (data : ThreadResponse.Partial) (st : Store)
  : ThreadResponse.t * Store :=
  let row := ThreadResponse.fresh (nextId st) data in
  (row, {| rows := rows st ++ [row]; writes := writes st ++ [Created row] |}).

(** [updateOne(id, data)]: rewrites the row with that id and returns it
    ([undefined] when there is none). *)
Definition updateOne (id : Z) (data : ThreadResponse.Partial) (st : Store)
  : option ThreadResponse.t * Store :=
  let rows' :=
    (λ r, if bool_decide (ThreadResponse.id r = id) then ThreadResponse.patch data r else r)
      <$> rows st in
  let st' := {| rows := rows'; writes := writes st ++ [Updated id data] |} in
  (findOneBy id st', st').

End Repo.

(** ** The asking service *)

Module AskingService.

Record AdjustmentSqlInput : Type := { sql : string }.

Definition notFound {A} (what : string) (id : Z) : result A :=
  Throw (mkError (what +:+ " " +:+ showZ id +:+ " not found")).

(** [changeThreadResponseAnswerDetailStatus(responseId, status, content)].
    The value returned is [None] for the bare [return;]. *)
Definition changeThreadResponseAnswerDetailStatus
    (responseId : Z) (status : ThreadResponseAnswerStatus) (content : option string)
    (st : Repo.Store) : result (option ThreadResponse.t * Repo.Store) :=
  match Repo.findOneBy responseId st with
  | None => notFound "Thread response" responseId
  | Some response =>
      if decide ((ThreadResponse.answerDetail response ≫= AnswerDetail.status) = Some status)
      then Ok (None, st)
      else
        let spread := default AnswerDetail.empty (ThreadResponse.answerDetail response) in
        let answerDetail :=
          {| AnswerDetail.queryId := AnswerDetail.queryId spread;
             AnswerDetail.status := Some status;
             AnswerDetail.content := content;
             AnswerDetail.error := AnswerDetail.error spread;
             AnswerDetail.numRowsUsedInLLM := AnswerDetail.numRowsUsedInLLM spread |} in
        let '(updatedResponse, st') :=
          Repo.updateOne responseId
            {| ThreadResponse.p_threadId := None;
               ThreadResponse.p_question := None;
               ThreadResponse.p_sql := None;
               ThreadResponse.p_askingTaskId := None;
               ThreadResponse.p_breakdownDetail := None;
               ThreadResponse.p_answerDetail := Some answerDetail;
               ThreadResponse.p_adjustment := None |} st in
        Ok (updatedResponse, st')
  end.

(** [adjustThreadResponseWithSQL(threadResponseId, input)]. *)
Definition adjustThreadResponseWithSQL
    (threadResponseId : Z) (input : AdjustmentSqlInput)
    (st : Repo.Store) : result (ThreadResponse.t * Repo.Store) :=
  match Repo.findOneBy threadResponseId st with
  | None => notFound "Thread response" threadResponseId
  | Some response =>
      Ok (Repo.createOne
            {| ThreadResponse.p_threadId := Some (ThreadResponse.threadId response);
               ThreadResponse.p_question := Some (ThreadResponse.question response);
               ThreadResponse.p_sql := Some (Some (sql input));
               ThreadResponse.p_askingTaskId := None;
               ThreadResponse.p_breakdownDetail := None;
               ThreadResponse.p_answerDetail := None;
               ThreadResponse.p_adjustment :=
                 Some {| Adjustment.type := APPLY_SQL;
                         Adjustment.payload :=
                           {| Adjustment.originalThreadResponseId :=
                                Some (ThreadResponse.id response);
                              Adjustment.sql := Some (sql input) |} |} |} st)
  end.

(** The answer detail written by [changeThreadResponseAnswerDetailStatus]. *)
Definition changedAnswerDetail (response : ThreadResponse.t)
    (status : ThreadResponseAnswerStatus) (content : option string) : AnswerDetail.t :=
  let spread := default AnswerDetail.empty (ThreadResponse.answerDetail response) in
  {| AnswerDetail.queryId := AnswerDetail.queryId spread;
     AnswerDetail.status := Some status;
     AnswerDetail.content := content;
     AnswerDetail.error := AnswerDetail.error spread;
     AnswerDetail.numRowsUsedInLLM := AnswerDetail.numRowsUsedInLLM spread |}.

End AskingService.

(** ** The adaptor of the AI service *)

Module Adaptor.

(** [AskDetailResult], what [getAskDetailResult] resolves to. *)
Module AskDetailResult.
Record Response : Type := mkResponse {
  description : option string;
  steps : list Cte.Step;
}.
Record t : Type := mk {
  type : option string;
  status : string;
  error : option RubixError.t;
  response : Response;
}.
End AskDetailResult.

(** The JSON body of a result, as far as the transformations read it. *)
Module Body.
Record WireError : Type := mkError { code : option string; message : option string }.
Record WireStep : Type := mkStep { summary : string; sql : string; cte_name : string }.
Record WireResponse : Type := mkResponse {
  description : option string;
  steps : option (list WireStep);
}.
Record t : Type := mk {
  type : option string;
  status : option string;
  error : option WireError;
  response : option WireResponse;
}.
End Body.

(** The part of [@server/utils/error] the adaptor calls; the module is not
    among the source files and is taken as a parameter. *)
Module Errors.
Record GraphQLError : Type := mkGraphQLError {
  message : string;
  extensionsCode : string;
  extensionsShortMessage : string;
}.
Record t : Type := mk {
  create : string → option (option string) → GraphQLError;
  NO_RELEVANT_SQL : string;
  AI_SERVICE_UNDEFINED_ERROR : string;
}.
End Errors.

(** JavaScript truthiness of a string that may be [undefined]. *)
Definition truthy (s : option string) : bool :=
  match s with
  | None => false
  | Some s => negb (bool_decide (s = ""))
  end.

Section WithErrors.

Variable E : Errors.t.

(** [transformStatusAndError(body)]. *)
Definition transformStatusAndError (body : Body.t)
  : result (string * option RubixError.t) :=
  let status := toUpperCase <$> Body.status body in
  if negb (truthy status) then
    Throw (Js.mkError ("Unknown ask status: " +:+ showOpt (Body.status body)))
  else
    let code := Body.error body ≫= Body.code in
    let isShowAIServiceErrorMessage :=
      bool_decide (code = Some (Errors.NO_RELEVANT_SQL E))
      || bool_decide (code = Some (Errors.AI_SERVICE_UNDEFINED_ERROR E)) in
    let error :=
      if truthy code then
        Some (Errors.create E (default "" code)
                (if isShowAIServiceErrorMessage
                 then Some (Body.error body ≫= Body.message)
                 else None))
      else None in
    let formattedError :=
      (λ error, {| RubixError.code := Errors.extensionsCode error;
                   RubixError.message := Errors.message error;
                   RubixError.shortMessage := Errors.extensionsShortMessage error |})
        <$> error in
    Ok (default "" status, formattedError).

(** [transformAskDetailResult(body)]. *)
Definition transformAskDetailResult (body : Body.t) : result AskDetailResult.t :=
  '(status, error) ← transformStatusAndError body;
  let steps :=
    (λ step, {| Cte.summary := Body.summary step;
                Cte.sql := Body.sql step;
                Cte.cteName := Body.cte_name step |})
      <$> default [] (Body.response body ≫= Body.steps) in
  Ok {| AskDetailResult.type := Body.type body;
        AskDetailResult.status := status;
        AskDetailResult.error := error;
        AskDetailResult.response :=
          {| AskDetailResult.description := Body.response body ≫= Body.description;
             AskDetailResult.steps := steps |} |}.

(** [getAskDetailResult(queryId)], given what the GET request settled
    with: a rejection is logged and thrown again. *)
Definition getAskDetailResult (reply : result Body.t) : result AskDetailResult.t :=
  match reply with
  | Ok data => transformAskDetailResult data
  | Throw err => Throw err
  end.

End WithErrors.

(** *** Deployment *)

(** Modelled from the spec: [RubixSystemStatus], the deploy status
    enumeration, upper-case names at run time. *)
Module RubixSystemStatus.
Definition INDEXING : string := "INDEXING".
Definition FINISHED : string := "FINISHED".
Definition FAILED : string := "FAILED".
End RubixSystemStatus.

(** Modelled from the spec: [RubixDeployStatusEnum], the outcome of a
    deployment. *)
Module RubixDeployStatusEnum.
Inductive t : Type := SUCCESS | FAILED.
End RubixDeployStatusEnum.

Record RubixDeployResponse : Type := mkDeployResponse {
  status : RubixDeployStatusEnum.t;
  error : option string;
}.

Record DeployData : Type := mkDeployData { manifest : string; hash : string }.

(** The body of the status endpoint. *)
Record StatusData : Type := mkStatusData {
  dataError : option string;
  dataStatus : option string;
}.

(** The remote service as the adaptor sees it: what the POST settles with
    (the deploy id), and what the [k]-th status request settles with. *)
Record Remote : Type := mkRemote {
  postReply : result string;
  statusReply : nat → result StatusData;
}.

(** What the adaptor did: status requests sent (with the deploy id) and
    timers armed (in milliseconds), oldest first. *)
Record Trace : Type := mkTrace { requests : list string; timers : list Z }.

Definition noTrace : Trace := mkTrace [] [].

(** [getDeployStatus(deployId)], given what the GET request settled with. *)
Definition getDeployStatus (reply : result StatusData) : result string :=
  match reply with
  | Throw err => Throw err
  | Ok data =>
      if truthy (dataError data) then Throw (Js.mkError (default "" (dataError data)))
      else
        match dataStatus data with
        | None =>
            Throw (Js.mkError "Cannot read properties of undefined (reading 'toUpperCase')")
        | Some status => Ok (toUpperCase status)
        end
  end.

(** The [for] loop of [waitDeployFinished], over the values [waitTime]
    still has to take.  The result is [None] for the bare [return;]. *)
Fixpoint waitLoop (remote : Remote) (deployId : string) (waitTimes : list Z)
    (deploySuccess : bool) (w : Trace) : result (option bool) * Trace :=
  match waitTimes with
  | [] => (Ok (Some deploySuccess), w)
  | waitTime :: later =>
      let w1 := mkTrace (requests w ++ [deployId]) (timers w) in
      match getDeployStatus (statusReply remote (length (requests w))) with
      | Throw err => (Throw err, w1)
      | Ok status =>
          if decide (status = RubixSystemStatus.FINISHED) then (Ok (Some true), w1)
          else if decide (status = RubixSystemStatus.FAILED) then (Ok (Some deploySuccess), w1)
          else if decide (status = RubixSystemStatus.INDEXING) then
            waitLoop remote deployId later deploySuccess
              (mkTrace (requests w1) (timers w1 ++ [waitTime * 1000]))
          else (Ok None, w1)
      end
  end.

(** [for (let waitTime = 1; waitTime <= 7; waitTime++)] *)
Definition waitTimes : list Z := seqZ 1 7.

Definition waitDeployFinished (remote : Remote) (deployId : string) (w : Trace)
  : result (option bool) * Trace :=
  waitLoop remote deployId waitTimes false w.

(** [deploy(deployData)]: the [try] block, then the [catch]. *)
Definition deploy (remote : Remote) (deployData : DeployData) (w : Trace)
  : result RubixDeployResponse * Trace :=
  let tried : result RubixDeployResponse * Trace :=
    match postReply remote with
    | Throw err => (Throw err, w)
    | Ok deployId =>
        let '(waited, w') := waitDeployFinished remote deployId w in
        match waited with
        | Throw err => (Throw err, w')
        | Ok deploySuccess =>
            if default false deploySuccess then
              (Ok (mkDeployResponse RubixDeployStatusEnum.SUCCESS None), w')
            else
              (Ok (mkDeployResponse RubixDeployStatusEnum.FAILED
                     (Some ("Rubix: Deploy Rubix failed or timeout, hash: "
                              +:+ hash deployData))), w')
        end
    end in
  match tried with
  | (Throw err, w') =>
      (Ok (mkDeployResponse RubixDeployStatusEnum.FAILED
             (Some ("Rubix Error: deployment hash:" +:+ hash deployData
                      +:+ ", " +:+ Js.message err))), w')
  | (Ok response, w') => (Ok response, w')
  end.

(** [waitTime * 1000] *)
Definition millis (waitTime : Z) : Z := waitTime * 1000.

(** The timers of a wait that goes through all its attempts. *)
Definition backoff : list Z := [1000; 2000; 3000; 4000; 5000; 6000; 7000].

(** *** The specification's reading of an unknown status *)

(** The specification's reading: a status outside the enumeration makes
    the transformation throw. *)
Definition unknownStatusIsFatal (E : Errors.t) (body : Body.t) : Prop :=
  ∀ w, Body.status body = Some w →
       toUpperCase w ∉ AskResultStatus.values →
       ∃ err, transformStatusAndError E body = Throw err.

End Adaptor.

(** ** The breakdown background tracker *)

(** [isFinalized(status)] *)
Definition isFinalized (status : string) : bool :=
  bool_decide (status = AskResultStatus.FAILED)
  || bool_decide (status = AskResultStatus.FINISHED)
  || bool_decide (status = AskResultStatus.STOPPED).

Module Tracker.

Import Adaptor.

(** An asynchronous job of one cycle, suspended at one of its two
    [await]s, with the variables it has captured. *)
Inductive Job : Type :=
| AwaitFetch (threadResponse : ThreadResponse.t) (breakdownDetail : BreakdownDetail.t)
| AwaitUpdate (threadResponse : ThreadResponse.t) (breakdownDetail : BreakdownDetail.t)
    (result : AskDetailResult.t).

(** The entity a job polls. *)
Definition entity (job : Job) : Z :=
  match job with
  | AwaitFetch threadResponse _ | AwaitUpdate threadResponse _ _ =>
      ThreadResponse.id threadResponse
  end.

(** [telemetry.sendEvent(HOME_ANSWER_BREAKDOWN, { question, error }, ..)];
    [success] is false when the service tag and [false] are passed. *)
Record Sent : Type := mkSent {
  sentQuestion : option string;
  sentError : option RubixError.t;
  success : bool;
}.

Record State : Type := mkState {
  tasks : gmap Z ThreadResponse.t;      (* this.tasks *)
  runningJobs : gset Z;                  (* this.runningJobs *)
  pending : list Job;                    (* jobs suspended at an await *)
  store : Repo.Store;                    (* the thread-response table *)
  fetches : list (Z * string);           (* getAskDetailResult calls: entity, queryId *)
  telemetry : list Sent;                 (* events sent *)
  rejections : list Error;               (* reasons of the jobs that rejected *)
}.

(** The tracker as its constructor leaves it. *)
Definition init (st : Repo.Store) : State :=
  mkState ∅ ∅ [] st [] [] [].

(** [Object.values(this.tasks)]: the keys are row ids, and integer keys
    enumerate in ascending order. *)
Definition byKey (a b : Z * ThreadResponse.t) : Prop := a.1 ≤ b.1.

#[global] Instance byKey_dec : RelDecision byKey := λ a b, decide (a.1 ≤ b.1).

Definition objectValues (m : gmap Z ThreadResponse.t) : list ThreadResponse.t :=
  (merge_sort byKey (map_to_list m)).*2.

(** A job of a cycle, run from its start to its first [await] (or to its
    end, when it returns or throws before). *)
Definition startJob (s : State) (threadResponse : ThreadResponse.t) : State :=
  let i := ThreadResponse.id threadResponse in
  if decide (i ∈ runningJobs s) then s
  else
    let running := {[i]} ∪ runningJobs s in
    match ThreadResponse.breakdownDetail threadResponse with
    | None =>
        (* reading [queryId] of [undefined] throws: the job rejects *)
        mkState (tasks s) running (pending s) (store s) (fetches s) (telemetry s)
          (rejections s
             ++ [Js.mkError "Cannot read properties of undefined (reading 'queryId')"])
    | Some breakdownDetail =>
        mkState (tasks s) running
          (pending s ++ [AwaitFetch threadResponse breakdownDetail])
          (store s)
          (fetches s ++ [(i, BreakdownDetail.queryId breakdownDetail)])
          (telemetry s) (rejections s)
    end.

(** The callback of [setInterval]: every job is started in turn. *)
Definition tick (s : State) : State :=
  foldl startJob s (objectValues (tasks s)).

(** [addTask(threadResponse)] *)
Definition addTask (threadResponse : ThreadResponse.t) (s : State) : State :=
  mkState (<[ThreadResponse.id threadResponse := threadResponse]> (tasks s))
    (runningJobs s) (pending s) (store s) (fetches s) (telemetry s) (rejections s).

(** The record written when the status has changed. *)
Definition updatedBreakdownDetail (breakdownDetail : BreakdownDetail.t)
    (result : AskDetailResult.t) : BreakdownDetail.t :=
  {| BreakdownDetail.queryId := BreakdownDetail.queryId breakdownDetail;
     BreakdownDetail.status := AskDetailResult.status result;
     BreakdownDetail.error := AskDetailResult.error result;
     BreakdownDetail.description :=
       AskDetailResult.description (AskDetailResult.response result);
     BreakdownDetail.steps :=
       Some (AskDetailResult.steps (AskDetailResult.response result)) |}.

Definition breakdownPatch (d : BreakdownDetail.t) : ThreadResponse.Partial :=
  {| ThreadResponse.p_threadId := None;
     ThreadResponse.p_question := None;
     ThreadResponse.p_sql := None;
     ThreadResponse.p_askingTaskId := None;
     ThreadResponse.p_breakdownDetail := Some d;
     ThreadResponse.p_answerDetail := None;
     ThreadResponse.p_adjustment := None |}.

(** The job at position [n] resumes after [getAskDetailResult] settled. *)
Definition fetchSettled (n : nat) (outcome : result AskDetailResult.t) (s : State)
  : option State :=
  match pending s !! n with
  | Some (AwaitFetch threadResponse breakdownDetail) =>
      let i := ThreadResponse.id threadResponse in
      match outcome with
      | Throw err =>
          Some (mkState (tasks s) (runningJobs s) (delete n (pending s)) (store s)
                  (fetches s) (telemetry s) (rejections s ++ [err]))
      | Ok result =>
          if decide (BreakdownDetail.status breakdownDetail = AskDetailResult.status result)
          then
            Some (mkState (tasks s) (runningJobs s ∖ {[i]}) (delete n (pending s))
                    (store s) (fetches s) (telemetry s) (rejections s))
          else
            Some (mkState (tasks s) (runningJobs s)
                    (<[n := AwaitUpdate threadResponse breakdownDetail result]> (pending s))
                    (store s) (fetches s) (telemetry s) (rejections s))
      end
  | _ => None
  end.

(** The job at position [n] resumes after [updateOne] settled: with
    [Ok tt] the write has been done, with [Throw] it has not. *)
Definition updateSettled (n : nat) (outcome : result unit) (s : State) : option State :=
  match pending s !! n with
  | Some (AwaitUpdate threadResponse breakdownDetail result) =>
      let i := ThreadResponse.id threadResponse in
      match outcome with
      | Throw err =>
          Some (mkState (tasks s) (runningJobs s) (delete n (pending s)) (store s)
                  (fetches s) (telemetry s) (rejections s ++ [err]))
      | Ok _ =>
          let store' :=
            (Repo.updateOne i
               (breakdownPatch (updatedBreakdownDetail breakdownDetail result))
               (store s)).2 in
          if isFinalized (AskDetailResult.status result) then
            Some (mkState (delete i (tasks s)) (runningJobs s ∖ {[i]})
                    (delete n (pending s)) store' (fetches s)
                    (telemetry s
                       ++ [mkSent (ThreadResponse.question threadResponse)
                             (AskDetailResult.error result)
                             (bool_decide
                                (AskDetailResult.status result = AskResultStatus.FINISHED))])
                    (rejections s))
          else
            Some (mkState (tasks s) (runningJobs s ∖ {[i]}) (delete n (pending s))
                    store' (fetches s) (telemetry s) (rejections s))
      end
  | _ => None
  end.

(** What can happen to a tracker between two suspension points. *)
Inductive Event : Type :=
| Tick
| AddTask (threadResponse : ThreadResponse.t)
| FetchSettled (n : nat) (outcome : result AskDetailResult.t)
| UpdateSettled (n : nat) (outcome : result unit).

(** One transition; [None] when the event cannot happen in that state
    (no job is suspended there). *)
Definition step (s : State) (ev : Event) : option State :=
  match ev with
  | Tick => Some (tick s)
  | AddTask threadResponse => Some (addTask threadResponse s)
  | FetchSettled n outcome => fetchSettled n outcome s
  | UpdateSettled n outcome => updateSettled n outcome s
  end.

Fixpoint run (s : State) (evs : list Event) : option State :=
  match evs with
  | [] => Some s
  | ev :: evs' => s' ← step s ev; run s' evs'
  end.

(** The entities with a poll in flight, one entry per suspended job. *)
Definition inflight (s : State) : list Z := entity <$> pending s.

(** How many polls of entity [i] are in flight. *)
Definition inflightCount (i : Z) (s : State) : nat :=
  length (filter (λ job, entity job = i) (pending s)).

(** The fetches issued so far for entity [i]. *)
Definition fetchesFor (i : Z) (s : State) : list (Z * string) :=
  filter (λ f, f.1 = i) (fetches s).

(** The status the table holds for entity [i]. *)
Definition persistedStatus (i : Z) (s : State) : option string :=
  BreakdownDetail.status
    <$> (Repo.findOneBy i (store s) ≫= ThreadResponse.breakdownDetail).

(** *** The running-jobs guard *)

(** No two suspended jobs poll the same entity, and the entity of every
    suspended job carries the running mark. *)
Definition guarded (s : State) : Prop :=
  NoDup (inflight s) ∧ ∀ i, i ∈ inflight s → i ∈ runningJobs s.

(** The specification's reading of removal: once the fetch of a poll has
    returned a terminal status, the entity is gone from the task map when
    the next tick has run, whatever happened to the job in between. *)
Definition removedByNextTick (s : State) (n : nat) (result : AskDetailResult.t)
    (between : list Event) : Prop :=
  ∀ tr d s',
    pending s !! n = Some (AwaitFetch tr d) →
    isFinalized (AskDetailResult.status result) = true →
    run s (FetchSettled n (Ok result) :: between ++ [Tick]) = Some s' →
    tasks s' !! ThreadResponse.id tr = None.

End Tracker.

(** ** Scenarios

    Concrete tables, bodies and tracker states on which the theorems are
    instantiated. *)

Module Scenario.

Import Adaptor Tracker.

Definition response7 : ThreadResponse.t :=
  ThreadResponse.mk 7 1 (Some "How many orders?") (Some "SELECT count(*) FROM orders")
    None None None None.

Definition table7 : Repo.Store := Repo.mk [response7] [].

Definition answered7 : ThreadResponse.t :=
  ThreadResponse.mk 7 1 (Some "How many orders?") (Some "SELECT count(*) FROM orders")
    None None
    (Some (AnswerDetail.mk (Some "q1") (Some STREAMING) None None None)) None.

Definition tableAnswered : Repo.Store := Repo.mk [answered7] [].

(** A service that accepts the deployment and keeps indexing. *)
Definition alwaysIndexing : Remote :=
  mkRemote (Ok "deploy-1") (λ _, Ok (mkStatusData None (Some "indexing"))).

(** An implementation of the error module, for the scenarios. *)
Definition plainErrors : Errors.t :=
  {| Errors.create := λ code custom,
       Errors.mkGraphQLError (default code (default None custom)) code code;
     Errors.NO_RELEVANT_SQL := "NO_RELEVANT_SQL";
     Errors.AI_SERVICE_UNDEFINED_ERROR := "OTHERS" |}.

Definition bodyWithStatus (status : option string) : Body.t :=
  Body.mk None status None None.

Definition detail (queryId status : string) : BreakdownDetail.t :=
  BreakdownDetail.mk queryId status None None None.

(** Response 7 as [generateThreadResponseBreakdown] registers it. *)
Definition tracked7 : ThreadResponse.t :=
  ThreadResponse.mk 7 1 (Some "How many orders?") (Some "SELECT count(*) FROM orders")
    None (Some (detail "query-7" AskResultStatus.UNDERSTANDING)) None None.

Definition table : Repo.Store := Repo.mk [tracked7] [].

Definition fetched (status : string) : AskDetailResult.t :=
  AskDetailResult.mk None status None (AskDetailResult.mkResponse None []).

(** Registered, and polled by a first tick. *)
Definition polling7 : State := tick (addTask tracked7 (init table)).

(** The job of entity 7 awaiting its write of [FINISHED], and the tracker
    once that write has been done. *)
Definition finishing7 : State :=
  mkState (tasks polling7) (runningJobs polling7)
    [AwaitUpdate tracked7 (detail "query-7" AskResultStatus.UNDERSTANDING)
       (fetched AskResultStatus.FINISHED)]
    table [(7, "query-7")] [] [].

Definition finished7 : State :=
  mkState (delete 7 (tasks polling7)) (runningJobs polling7 ∖ {[7]}) []
    (Repo.updateOne 7
       (breakdownPatch
          (updatedBreakdownDetail (detail "query-7" AskResultStatus.UNDERSTANDING)
             (fetched AskResultStatus.FINISHED)))
       table).2
    [(7, "query-7")] [mkSent (Some "How many orders?") None true] [].

End Scenario.

(** ** More of the asking service *)

Module AskingServiceMore.

Import Adaptor Tracker.

(** The tracker state with another table. *)
Definition withStore (st : Repo.Store) (s : State) : State :=
  mkState (tasks s) (runningJobs s) (pending s) st (fetches s) (telemetry s) (rejections s).

(** The partial record [{ sql }]. *)
Definition sqlPatch (sql : string) : ThreadResponse.Partial :=
  {| ThreadResponse.p_threadId := None;
     ThreadResponse.p_question := None;
     ThreadResponse.p_sql := Some (Some sql);
     ThreadResponse.p_askingTaskId := None;
     ThreadResponse.p_breakdownDetail := None;
     ThreadResponse.p_answerDetail := None;
     ThreadResponse.p_adjustment := None |}.

(** [updateThreadResponse(responseId, data)] with [data = { sql }]. *)
Definition updateThreadResponse (responseId : Z) (sql : string) (st : Repo.Store)
  : result (option ThreadResponse.t * Repo.Store) :=
  match Repo.findOneBy responseId st with
  | None => AskingService.notFound "Thread response" responseId
  | Some threadResponse => Ok (Repo.updateOne responseId (sqlPatch sql) st)
  end.

(** JavaScript truthiness of a number that may be [undefined]. *)
Definition truthyZ (n : option Z) : bool :=
  match n with
  | None => false
  | Some n => negb (bool_decide (n = 0))
  end.

(** [getAskingHistory(threadId, excludeThreadResponseId)];
    [getResponsesWithThread] is the repository method, which is not among
    the source files and is taken as a parameter. *)
Definition getAskingHistory
    (getResponsesWithThread : Z → Z → list ThreadResponse.t)
    (threadId : Z) (excludeThreadResponseId : option Z) : list ThreadResponse.t :=
  if negb (truthyZ (Some threadId)) then []
  else
    let responses := getResponsesWithThread threadId 10 in
    let responses :=
      if truthyZ excludeThreadResponseId then
        filter (λ response, Some (ThreadResponse.id response) ≠ excludeThreadResponseId)
          responses
      else responses in
    filter (λ response, truthy (ThreadResponse.sql response)) responses.

(** The unfinished responses of [initialize]: a breakdown status that is
    set and not finalized. *)
Definition unfinishedBreakdown (threadResponse : ThreadResponse.t) : bool :=
  match ThreadResponse.breakdownDetail threadResponse with
  | None => false
  | Some breakdownDetail =>
      truthy (Some (BreakdownDetail.status breakdownDetail))
      && negb (isFinalized (BreakdownDetail.status breakdownDetail))
  end.

(** [initialize()]: [findAll] gives the rows of the table. *)
Definition initialize (s : State) : State :=
  foldl (λ s threadResponse, addTask threadResponse s) s
    (filter (λ threadResponse, unfinishedBreakdown threadResponse)
       (Repo.rows (store s))).

(** The body of the request of [generateAskDetail]. *)
Record AskDetailInput : Type := mkAskDetailInput {
  query : option string;
  inputSql : option string;
  language : string;
}.

(** The detail [generateThreadResponseBreakdown] writes. *)
Definition submittedDetail (queryId : string) : BreakdownDetail.t :=
  {| BreakdownDetail.queryId := queryId;
     BreakdownDetail.status := AskResultStatus.UNDERSTANDING;
     BreakdownDetail.error := None;
     BreakdownDetail.description := None;
     BreakdownDetail.steps := None |}.

(** [generateThreadResponseBreakdown(threadResponseId, { language })].
    [generateAskDetail] is the adaptor call: what the POST settles with,
    the query id or the error thrown again.  The result comes with the
    tracker (table included) as the call leaves it and the requests sent. *)
Definition generateThreadResponseBreakdown
    (generateAskDetail : AskDetailInput → result string)
    (threadResponseId : Z) (language : string) (s : State)
  : result ThreadResponse.t * State * list AskDetailInput :=
  match Repo.findOneBy threadResponseId (store s) with
  | None => (AskingService.notFound "Thread response" threadResponseId, s, [])
  | Some threadResponse =>
      let input :=
        mkAskDetailInput (ThreadResponse.question threadResponse)
          (ThreadResponse.sql threadResponse) language in
      match generateAskDetail input with
      | Throw err => (Throw err, s, [input])
      | Ok queryId =>
          let '(updatedThreadResponse, st') :=
            Repo.updateOne (ThreadResponse.id threadResponse)
              (breakdownPatch (submittedDetail queryId)) (store s) in
          match updatedThreadResponse with
          | None =>
              (Throw (Js.mkError "Cannot read properties of undefined (reading 'id')"),
               withStore st' s, [input])
          | Some updated => (Ok updated, addTask updated (withStore st' s), [input])
          end
      end
  end.

(** *** Data preview of a breakdown *)

(** What [previewBreakdownData] does to the outside: the query it has
    executed, the telemetry event it sends ([success] is false when the
    failure flag is passed). *)
Inductive Effect : Type :=
| Previewed (sql : string) (limit : option Z)
| SentPreviewEvent (sql : string) (error : option string) (success : bool).

Section Preview.

(** The collaborators, none of which is among the source files: the
    current project, its last deployment's manifest, [format] of
    sql-formatter, and [queryService.preview]. *)
Variables Project Manifest Rows : Type.
Variable getCurrentProject : result Project.
Variable getLastDeploymentManifest : Project → result Manifest.
Variable format : string → result string.
Variable preview : string → Project → Manifest → option Z → result Rows.

(** [constructCteSql(steps, stepIndex)] where [steps] may be [undefined].
    Reading [steps.length] is then a TypeError.  The range test reads it
    only after [stepIndex < 0 ||], so a negative cutoff is still reported as
    an invalid index; a cutoff that is not negative fails in the range
    test, an omitted one at [slicedSteps.length]. *)
Definition constructCteSqlOf (steps : option (list Cte.Step)) (stepIndex : option Z)
  : result string :=
  match steps with
  | Some steps => Cte.constructCteSql steps stepIndex
  | None =>
      match stepIndex with
      | Some i =>
          if decide (i < 0)
          then Throw (Js.mkError ("Invalid stepIndex: " +:+ Js.showZ i))
          else Throw (Js.mkError "Cannot read properties of undefined (reading 'length')")
      | None => Throw (Js.mkError "Cannot read properties of undefined (reading 'length')")
      end
  end.

(** [previewBreakdownData(responseId, stepIndex, limit)] *)
Definition previewBreakdownData (responseId : Z) (stepIndex limit : option Z)
    (st : Repo.Store) : result Rows * list Effect :=
  match Repo.findOneBy responseId st with
  | None => (AskingService.notFound "Thread response" responseId, [])
  | Some response =>
      match getCurrentProject with
      | Throw err => (Throw err, [])
      | Ok project =>
          match getLastDeploymentManifest project with
          | Throw err => (Throw err, [])
          | Ok mdl =>
              let steps := ThreadResponse.breakdownDetail response ≫= BreakdownDetail.steps in
              match constructCteSqlOf steps stepIndex ≫= format with
              | Throw err => (Throw err, [])
              | Ok sql =>
                  match preview sql project mdl limit with
                  | Ok data =>
                      (Ok data, [Previewed sql limit; SentPreviewEvent sql None true])
                  | Throw err =>
                      (Throw err,
                       [Previewed sql limit;
                        SentPreviewEvent sql (Some (Js.message err)) false])
                  end
              end
          end
      end
  end.

End Preview.

End AskingServiceMore.

(** ** More of the adaptor *)

Module AdaptorMore.

Import Adaptor.

(** What a rejected HTTP request carries: the error's [message] and,
    when the service answered, [response.data.detail]. *)
Record HttpFailure : Type := mkHttpFailure {
  failureMessage : string;
  failureDetail : option string;
}.

(** [getAIServiceError(error)] *)
Definition getAIServiceError (error : HttpFailure) : string :=
  if truthy (failureDetail error)
  then failureMessage error +:+ ", detail: " +:+ default "" (failureDetail error)
  else failureMessage error.

(** The answer to the DELETE request: its status code and [data.error]. *)
Record DeleteResponse : Type := mkDeleteResponse {
  responseStatus : Z;
  responseError : option string;
}.

(** [delete(projectId)], given what the DELETE request settles with.  The
    result comes with the project ids of the requests sent. *)
Definition delete (reply : HttpFailure + DeleteResponse) (projectId : Z)
  : result unit * list string :=
  let tried : (HttpFailure + unit) * list string :=
    if bool_decide (projectId = 0) then
      (inl (mkHttpFailure "Project ID is required" None), [])
    else
      match reply with
      | inl failure => (inl failure, [showZ projectId])
      | inr response =>
          if bool_decide (responseStatus response = 200) then (inr tt, [showZ projectId])
          else
            (inl (mkHttpFailure
                    ("Failed to delete semantics. " +:+ showOpt (responseError response))
                    None),
             [showZ projectId])
      end in
  match tried with
  | (inr _, sent) => (Ok tt, sent)
  | (inl error, sent) =>
      (Throw (Js.mkError ("Rubix: Failed to delete semantics: " +:+ getAIServiceError error)),
       sent)
  end.

(** What the wait returns for the first answer that is not [INDEXING]. *)
Definition verdict (answer : result string) : result (option bool) :=
  match answer with
  | Throw err => Throw err
  | Ok status =>
      if decide (status = RubixSystemStatus.FINISHED) then Ok (Some true)
      else if decide (status = RubixSystemStatus.FAILED) then Ok (Some false)
      else Ok None
  end.

End AdaptorMore.

(** ** The result body as it arrives

    [transformAskDetailResult] and [transformStatusAndError] declare their
    parameter [any]: the body is whatever the response decodes to.  This
    part models them on every such value, with the TypeErrors of reading a
    property of [null] or [undefined], of calling [toUpperCase] on a value
    that is not a string and of mapping a value that is not an array.
    [Adaptor] above is their restriction to bodies of the declared shape
    ([AdaptorWire.ofBody]). *)

Module Json.

(** A decoded JSON value.  Numbers are kept abstract: of a number only
    its truthiness is ever read. *)
#[warnings="-register-all"] Inductive t (Number : Type) : Type :=
| Null
| Bool (b : bool)
| Num (n : Number)
| Str (s : string)
| Arr (items : list (t Number))
| Obj (props : gmap string (t Number)).
Arguments Null {Number}.
Arguments Bool {Number} b.
Arguments Num {Number} n.
Arguments Str {Number} s.
Arguments Arr {Number} items.
Arguments Obj {Number} props.

(** A value that may be [undefined]. *)
Definition Value (Number : Type) : Type := option (t Number).

(** [v.key] for a [v] that is neither [null] nor [undefined], and a [key]
    that no prototype defines, as are all the keys read below: the
    object's own property, [undefined] on every other value. *)
Definition prop {Number} (key : string) (v : t Number) : Value Number :=
  match v with
  | Obj props => props !! key
  | _ => None
  end.

(** [v?.key] *)
Definition chain {Number} (v : Value Number) (key : string) : Value Number :=
  match v with
  | None | Some Null => None
  | Some v => prop key v
  end.

(** JavaScript truthiness, given that of numbers. *)
Definition truthy {Number} (nonzero : Number → bool) (v : Value Number) : bool :=
  match v with
  | None | Some Null => false
  | Some (Bool b) => b
  | Some (Num n) => nonzero n
  | Some (Str s) => negb (bool_decide (s = ""))
  | Some (Arr _) | Some (Obj _) => true
  end.

(** [v === c] for a string [c]. *)
Definition isString {Number} (v : Value Number) (c : string) : bool :=
  match v with
  | Some (Str s) => bool_decide (s = c)
  | _ => false
  end.

(** A TypeError.  Its message depends on the engine and on the compilation
    target; no statement below reads it. *)
Definition typeError {A} (message : string) : result A := Throw (Js.mkError message).

(** [Array.prototype.map] with a callback that may throw. *)
Fixpoint map {A B} (f : A → result B) (l : list A) : result (list B) :=
  match l with
  | [] => Ok []
  | a :: l' => b ← f a; bs ← map f l'; Ok (b :: bs)
  end.

End Json.

Module AdaptorWire.

Import Adaptor.

(** What [transformAskDetailResult] returns, with the fields that are
    copied from the body as they are. *)
Module Result.
Record Step (Number : Type) : Type := mkStep {
  summary : Json.Value Number;
  sql : Json.Value Number;
  cteName : Json.Value Number;
}.
Arguments mkStep {Number} _ _ _.
Arguments summary {Number} _.
Arguments sql {Number} _.
Arguments cteName {Number} _.
Record Response (Number : Type) : Type := mkResponse {
  description : Json.Value Number;
  steps : list (Step Number);
}.
Arguments mkResponse {Number} _ _.
Arguments description {Number} _.
Arguments steps {Number} _.
Record t (Number : Type) : Type := mk {
  type : Json.Value Number;
  status : string;
  error : option RubixError.t;
  response : Response Number;
}.
Arguments mk {Number} _ _ _ _.
Arguments type {Number} _.
Arguments status {Number} _.
Arguments error {Number} _.
Arguments response {Number} _.
End Result.

(** [@server/utils/error] again, [create] taking the code as it arrives. *)
Module WireErrors.
Record t (Number : Type) : Type := mk {
  create : Json.t Number → option (Json.Value Number) → Errors.GraphQLError;
  NO_RELEVANT_SQL : string;
  AI_SERVICE_UNDEFINED_ERROR : string;
}.
Arguments mk {Number} _ _ _.
Arguments create {Number} _ _ _.
Arguments NO_RELEVANT_SQL {Number} _.
Arguments AI_SERVICE_UNDEFINED_ERROR {Number} _.
End WireErrors.

Section WithErrors.

Context {Number : Type}.
Variable nonzero : Number → bool.
Variable E : WireErrors.t Number.

(** [transformStatusAndError(body)].  [body?.status?.toUpperCase()] is
    [undefined] for a status that is [undefined] or [null], the upper-cased
    text for a string, and a TypeError for every other value; [!status]
    then holds for [undefined] and for the empty string. *)
Definition transformStatusAndError (body : Json.Value Number)
  : result (string * option RubixError.t) :=
  status ←
    match Json.chain body "status" with
    | None => Throw (Js.mkError "Unknown ask status: undefined")
    | Some Json.Null => Throw (Js.mkError "Unknown ask status: null")
    | Some (Json.Str s) =>
        let status := toUpperCase s in
        if bool_decide (status = "")
        then Throw (Js.mkError ("Unknown ask status: " +:+ s))
        else Ok status
    | Some _ => Json.typeError "body?.status?.toUpperCase is not a function"
    end;
  let code := Json.chain (Json.chain body "error") "code" in
  let isShowAIServiceErrorMessage :=
    Json.isString code (WireErrors.NO_RELEVANT_SQL E)
    || Json.isString code (WireErrors.AI_SERVICE_UNDEFINED_ERROR E) in
  let error :=
    match code with
    | Some c =>
        if Json.truthy nonzero code then
          Some (WireErrors.create E c
                  (if isShowAIServiceErrorMessage
                   then Some (Json.chain (Json.chain body "error") "message")
                   else None))
        else None
    | None => None
    end in
  let formattedError :=
    (λ error, {| RubixError.code := Errors.extensionsCode error;
                 RubixError.message := Errors.message error;
                 RubixError.shortMessage := Errors.extensionsShortMessage error |})
      <$> error in
  Ok (status, formattedError).

(** The callback of [map]: [step.summary] on [null] is a TypeError. *)
Definition toStep (step : Json.t Number) : result (Result.Step Number) :=
  match step with
  | Json.Null => Json.typeError "Cannot read properties of null (reading 'summary')"
  | _ => Ok {| Result.summary := Json.prop "summary" step;
               Result.sql := Json.prop "sql" step;
               Result.cteName := Json.prop "cte_name" step |}
  end.

(** [transformAskDetailResult(body)].  The destructuring [const { type } =
    body] is a TypeError on [null] and [undefined]; so is [.map] on a
    truthy [steps] that is not an array. *)
Definition transformAskDetailResult (body : Json.Value Number)
  : result (Result.t Number) :=
  type ←
    match body with
    | None | Some Json.Null =>
        Json.typeError "Cannot destructure property 'type' of 'body'"
    | Some v => Ok (Json.prop "type" v)
    end;
  '(status, error) ← transformStatusAndError body;
  let found := Json.chain (Json.chain body "response") "steps" in
  items ←
    (if Json.truthy nonzero found then
       match found with
       | Some (Json.Arr items) => Ok items
       | _ => Json.typeError "(body?.response?.steps || []).map is not a function"
       end
     else Ok []);
  steps ← Json.map toStep items;
  Ok {| Result.type := type;
        Result.status := status;
        Result.error := error;
        Result.response :=
          {| Result.description := Json.chain (Json.chain body "response") "description";
             Result.steps := steps |} |}.

(** [getAskDetailResult(queryId)], given what the GET request settled
    with: whatever is thrown inside the [try] is logged and thrown again. *)
Definition getAskDetailResult (reply : result (Json.Value Number))
  : result (Result.t Number) :=
  match reply with
  | Ok data => transformAskDetailResult data
  | Throw err => Throw err
  end.

End WithErrors.

(** *** Bodies of the declared shape

    The JSON value of a typed body: every field that is present, under
    its key. *)

Section OfBody.

Context {Number : Type}.

Definition field (key : string) (v : Json.Value Number)
    (props : gmap string (Json.t Number)) : gmap string (Json.t Number) :=
  match v with
  | Some v => <[key := v]> props
  | None => props
  end.

Definition ofError (e : Body.WireError) : Json.t Number :=
  Json.Obj (field "code" (Json.Str <$> Body.code e)
           (field "message" (Json.Str <$> Body.message e) ∅)).

Definition ofStep (step : Body.WireStep) : Json.t Number :=
  Json.Obj (<["summary" := Json.Str (Body.summary step)]>
           (<["sql" := Json.Str (Body.sql step)]>
           (<["cte_name" := Json.Str (Body.cte_name step)]> ∅))).

Definition ofResponse (r : Body.WireResponse) : Json.t Number :=
  Json.Obj (field "description" (Json.Str <$> Body.description r)
           (field "steps" ((λ steps, Json.Arr (ofStep <$> steps)) <$> Body.steps r) ∅)).

Definition ofBody (body : Body.t) : Json.t Number :=
  Json.Obj (field "type" (Json.Str <$> Body.type body)
           (field "status" (Json.Str <$> Body.status body)
           (field "error" (ofError <$> Body.error body)
           (field "response" (ofResponse <$> Body.response body) ∅)))).

(** The typed result as the value the code returns. *)
Definition ofResult (r : AskDetailResult.t) : Result.t Number :=
  {| Result.type := Json.Str <$> AskDetailResult.type r;
     Result.status := AskDetailResult.status r;
     Result.error := AskDetailResult.error r;
     Result.response :=
       {| Result.description :=
            Json.Str <$> AskDetailResult.description (AskDetailResult.response r);
          Result.steps :=
            (λ step, {| Result.summary := Some (Json.Str (Cte.summary step));
                        Result.sql := Some (Json.Str (Cte.sql step));
                        Result.cteName := Some (Json.Str (Cte.cteName step)) |})
              <$> AskDetailResult.steps (AskDetailResult.response r) |} |}.

(** The error module on codes and messages that are strings. *)
Definition typedErrors (E : WireErrors.t Number) : Errors.t :=
  {| Errors.create := λ code options,
       WireErrors.create E (Json.Str code) (fmap (M:=option) Json.Str <$> options);
     Errors.NO_RELEVANT_SQL := WireErrors.NO_RELEVANT_SQL E;
     Errors.AI_SERVICE_UNDEFINED_ERROR := WireErrors.AI_SERVICE_UNDEFINED_ERROR E |}.

End OfBody.

(** *** Sample bodies, with integers for numbers *)

Definition nonzeroZ (n : Z) : bool := negb (bool_decide (n = 0)).

Definition wireErrors : WireErrors.t Z :=
  {| WireErrors.create := λ _ _, Errors.mkGraphQLError "message" "CODE" "short";
     WireErrors.NO_RELEVANT_SQL := "NO_RELEVANT_SQL";
     WireErrors.AI_SERVICE_UNDEFINED_ERROR := "OTHERS" |}.

(** [{"status": "finished", "response": {"steps": [null]}}] *)
Definition nullStep : Json.t Z :=
  Json.Obj (<["status" := Json.Str "finished"]>
           (<["response" := Json.Obj (<["steps" := Json.Arr [Json.Null]]> ∅)]> ∅)).

(** [{"status": 3}] *)
Definition numericStatus : Json.t Z :=
  Json.Obj (<["status" := Json.Num 3]> ∅).

(** [{"status": "finished", "error": {"code": 0}, "response": {"steps": 0}}] *)
Definition zeroes : Json.t Z :=
  Json.Obj (<["status" := Json.Str "finished"]>
           (<["error" := Json.Obj (<["code" := Json.Num 0]> ∅)]>
           (<["response" := Json.Obj (<["steps" := Json.Num 0]> ∅)]> ∅))).

End AdaptorWire.

(** ** Predicates on tracker states, and further scenarios *)

Module TrackerMore.

Import Adaptor Tracker AskingServiceMore Scenario.

(** Entity [i] carries the running mark although none of the suspended
    jobs polls it. *)
Definition abandoned (i : Z) (s : State) : Prop :=
  i ∈ runningJobs s ∧ i ∉ inflight s.

(** A row without its breakdown detail. *)
Definition otherColumns (r : ThreadResponse.t) : ThreadResponse.t :=
  {| ThreadResponse.id := ThreadResponse.id r;
     ThreadResponse.threadId := ThreadResponse.threadId r;
     ThreadResponse.question := ThreadResponse.question r;
     ThreadResponse.sql := ThreadResponse.sql r;
     ThreadResponse.askingTaskId := ThreadResponse.askingTaskId r;
     ThreadResponse.breakdownDetail := None;
     ThreadResponse.answerDetail := ThreadResponse.answerDetail r;
     ThreadResponse.adjustment := ThreadResponse.adjustment r |}.

(** A write of the breakdown detail of one row, and of nothing else. *)
Definition isBreakdownWrite (w : Repo.Write) : Prop :=
  ∃ i d, w = Repo.Updated i (breakdownPatch d).

(** Every registered response is registered under its id and has a
    breakdown detail whose status is set and not finalized. *)
Definition wellTracked (s : State) : Prop :=
  ∀ i r, tasks s !! i = Some r →
         ThreadResponse.id r = i ∧ unfinishedBreakdown r = true.

(** The events of the tracker itself: everything but a registration. *)
Definition ownEvent (ev : Event) : Prop :=
  match ev with
  | AddTask _ => False
  | _ => True
  end.

(** The tracker after the fetch of entity 7 was rejected. *)
Definition rejected7 : State :=
  mkState (tasks polling7) (runningJobs polling7) [] table [(7, "query-7")] []
    [Js.mkError "timeout"].

(** Response 7 with a finished breakdown of three steps, and its table. *)
Definition brokenDown7 : ThreadResponse.t :=
  ThreadResponse.mk 7 1 (Some "How many orders?") (Some "SELECT count(*) FROM orders")
    None
    (Some (BreakdownDetail.mk "query-7" AskResultStatus.FINISHED None None
             (Some [Cte.stepA; Cte.stepB; Cte.stepC])))
    None None.

Definition tableBrokenDown : Repo.Store := Repo.mk [brokenDown7] [].

(** An AI service that accepts every breakdown request. *)
Definition acceptsAll (input : AskDetailInput) : result string := Ok "query-8".

(** A deployment that is indexed after two status requests. *)
Definition indexedAtThird : Remote :=
  mkRemote (Ok "deploy-1")
    (λ k, Ok (mkStatusData None
                (Some (if bool_decide (k < 2)%nat then "indexing" else "finished")))).

(** A deployment whose second status request fails. *)
Definition failsAtSecond : Remote :=
  mkRemote (Ok "deploy-1")
    (λ k, if bool_decide (k < 1)%nat then Ok (mkStatusData None (Some "indexing"))
          else Throw (Js.mkError "socket hang up")).

End TrackerMore.

(** * Theorems *)

(** ** Strings and lists *)

#[local] Arguments String.append !_ _ /.

Lemma append_assoc (a b c : string) : (a +:+ b) +:+ c = a +:+ (b +:+ c).
Proof. induction a as [|x a IH]; simpl; [reflexivity | by rewrite IH]. Qed.

(** Both sides of an equation between appends, brought to right-nested form. *)
Ltac string_normalize :=
  repeat (progress (rewrite ?append_assoc; simpl String.append)).

Lemma prefix_append (s t : string) : String.prefix s (s +:+ t) = true.
Proof.
  induction s as [|x s IH]; simpl; [by destruct t|].
  destruct (ascii_dec x x); [exact IH | done].
Qed.

Lemma slice0_take {A} (l : list A) (e : Z) :
  0 ≤ e → slice0 l e = take (Z.to_nat e) l.
Proof.
  intros He. unfold slice0.
  destruct (Z.ltb_spec e 0) as [?|_]; [lia|].
  destruct (Z.min_spec e (Z.of_nat (length l))) as [[_ ->]|[Hle ->]]; [reflexivity|].
  rewrite Nat2Z.id, !take_ge; [reflexivity | lia | lia].
Qed.

(** A list of two elements or more ends in a second-to-last and a last. *)
Lemma list_last_two {A} (l : list A) :
  (2 ≤ length l)%nat → ∃ init penult last, l = init ++ [penult; last].
Proof.
  induction l as [|a l IH]; simpl; [lia|].
  destruct l as [|b [|c l]]; simpl in *; [lia | |].
  - intros _. by exists [], a, b.
  - intros _. destruct IH as (init & p & q & Heq); [lia|].
    exists (a :: init), p, q. by rewrite Heq.
Qed.

(** ** CTE assembly *)

Module CteProofs.

Import Cte.

(** The loop of [constructCteSql] from index [k] on, over a list that
    ends in two steps: wrapped steps with commas, the second-to-last
    without, the last one bare. *)
Lemma forEachFrom_emitStep (init : list Step) (penult last : Step) :
  ∀ (len k : nat) (acc : string),
    len = (k + length (init ++ [penult; last]))%nat →
    forEachFrom (emitStep len) k (init ++ [penult; last]) acc
    = acc +:+ concatStr (wrapped true <$> init)
          +:+ wrapped false penult +:+ trailing last.
Proof.
  induction init as [|a init IH]; intros len k acc Hlen.
  - simpl in *. unfold emitStep.
    repeat case_decide; try lia.
    unfold wrapped, trailing. string_normalize. reflexivity.
  - simpl in Hlen. rewrite length_app in Hlen. simpl in Hlen.
    change ((a :: init) ++ [penult; last]) with (a :: (init ++ [penult; last])).
    cbn [forEachFrom]. rewrite (IH len (S k)).
    2:{ rewrite length_app. simpl. lia. }
    unfold emitStep at 1.
    repeat case_decide; try lia.
    unfold concatStr. cbn [fmap list_fmap foldr].
    change (wrapped true a)
      with (cteName a +:+ " AS" +:+ nl +:+ "-- " +:+ summary a +:+ nl
              +:+ "(" +:+ sql a +:+ ")" +:+ ",").
    string_normalize. reflexivity.
Qed.

Lemma constructCteSql_sliced (steps : list Step) (stepIndex : option Z) :
  validCutoff steps stepIndex →
  constructCteSql steps stepIndex =
    let slicedSteps := take (Z.to_nat (emitted steps stepIndex)) steps in
    match slicedSteps with
    | [only] => Ok ("-- " +:+ summary only +:+ nl +:+ sql only)
    | _ => Ok (forEach (emitStep (length slicedSteps)) slicedSteps "WITH ")
    end.
Proof.
  intros Hvalid. unfold constructCteSql, emitted.
  destruct stepIndex as [i|]; simpl in *.
  - case_decide; [lia|]. simpl. rewrite slice0_take by lia. reflexivity.
  - rewrite Nat2Z.id, firstn_all. reflexivity.
Qed.

(** C5, as amended. Whenever two steps or more are emitted -- the cutoff
    is omitted on a list of two steps or more, or it is a valid index that
    is at least 1 -- [constructCteSql] returns a string that starts with
    [WITH ] and consists of exactly the emitted steps ([cutoff + 1] of
    them, or all): every one but the last two as
    [name AS], comment line, [(sql),]; the second-to-last the same
    without the comma; the last one as its comment line and bare SQL.
    With cutoff 0, which is valid on every list that has a first step, one
    step is emitted and the result is that first step alone, as its comment
    line and its SQL, with no [WITH]: whatever follows it in the list. *)
Theorem C5_with_clause (steps : list Step) (stepIndex : option Z) :
  (validCutoff steps stepIndex →
   2 ≤ emitted steps stepIndex →
   ∃ init penult last,
     take (Z.to_nat (emitted steps stepIndex)) steps = init ++ [penult; last]
     ∧ Z.of_nat (length (init ++ [penult; last])) = emitted steps stepIndex
     ∧ constructCteSql steps stepIndex = Ok (withClause init penult last)
     ∧ String.prefix "WITH " (withClause init penult last) = true)
  ∧ (∀ first rest,
       steps = first :: rest →
       validCutoff steps (Some 0)
       ∧ emitted steps (Some 0) = 1
       ∧ constructCteSql steps (Some 0)
           = Ok ("-- " +:+ summary first +:+ nl +:+ sql first)
       ∧ String.prefix "WITH " ("-- " +:+ summary first +:+ nl +:+ sql first)
           = false).
Proof.
  split.
  - intros Hvalid Htwo.
    assert (Hlen : Z.of_nat (length (take (Z.to_nat (emitted steps stepIndex)) steps))
                   = emitted steps stepIndex).
    { rewrite length_take. destruct stepIndex as [i|]; simpl in *; lia. }
    destruct (list_last_two (take (Z.to_nat (emitted steps stepIndex)) steps))
      as (init & p & q & Heq); [lia|].
    exists init, p, q. rewrite <- Heq at 2. repeat split; [done | done | |].
    + rewrite constructCteSql_sliced by done. cbv zeta. rewrite Heq.
      assert (Hloop : forEach (emitStep (length (init ++ [p; q]))) (init ++ [p; q]) "WITH "
                      = withClause init p q).
      { unfold forEach. by rewrite (forEachFrom_emitStep init p q _ 0%nat). }
      rewrite Hloop. by destruct init as [|a [|b init]].
    + apply prefix_append.
  - intros first rest ->.
    assert (Hvalid : validCutoff (first :: rest) (Some 0)).
    { simpl. lia. }
    split; [exact Hvalid|]. split; [reflexivity|]. split.
    + rewrite constructCteSql_sliced by exact Hvalid. reflexivity.
    + reflexivity.
Qed.

Lemma C5_with_clause_witness :
  (∃ init penult last,
     take (Z.to_nat (emitted [stepA; stepB; stepC] (Some 2))) [stepA; stepB; stepC]
       = init ++ [penult; last]
     ∧ Z.of_nat (length (init ++ [penult; last])) = emitted [stepA; stepB; stepC] (Some 2)
     ∧ constructCteSql [stepA; stepB; stepC] (Some 2) = Ok (withClause init penult last)
     ∧ String.prefix "WITH " (withClause init penult last) = true)
  ∧ (validCutoff [stepA; stepB; stepC] (Some 0)
     ∧ emitted [stepA; stepB; stepC] (Some 0) = 1
     ∧ constructCteSql [stepA; stepB; stepC] (Some 0)
         = Ok ("-- " +:+ summary stepA +:+ nl +:+ sql stepA)
     ∧ String.prefix "WITH " ("-- " +:+ summary stepA +:+ nl +:+ sql stepA) = false).
Proof.
  split.
  - apply (proj1 (C5_with_clause [stepA; stepB; stepC] (Some 2))); simpl; lia.
  - apply (proj2 (C5_with_clause [stepA; stepB; stepC] (Some 2)) stepA [stepB; stepC]).
    reflexivity.
Defined.

(** C5 as the specification states it fails: a list of two steps cut at
    index 0 gives the bare first statement, with no [WITH]. *)
Lemma C5_counterexample : ¬ multiStepClaim [stepA; stepB] (Some 0).
Proof.
  intros Hclaim. destruct Hclaim as (out & Hout & Hprefix); [simpl; lia | simpl; lia |].
  vm_compute in Hout. injection Hout as <-. vm_compute in Hprefix. discriminate.
Qed.

(** C6. For a list of exactly one step, with the cutoff omitted or 0,
    [constructCteSql] returns exactly the comment line with the summary
    followed by the SQL of that step, and the result has no [WITH ] in
    front. *)
Theorem C6_single_step (steps : list Step) (stepIndex : option Z) :
  length steps = 1%nat →
  stepIndex = None ∨ stepIndex = Some 0 →
  ∃ step,
    steps = [step]
    ∧ constructCteSql steps stepIndex = Ok ("-- " +:+ summary step +:+ nl +:+ sql step)
    ∧ String.prefix "WITH " ("-- " +:+ summary step +:+ nl +:+ sql step) = false.
Proof.
  intros Hlen Hidx. destruct steps as [|step [|? ?]]; simplify_eq/=.
  exists step. split; [done|]. split; [|reflexivity].
  destruct Hidx as [-> | ->]; reflexivity.
Qed.

Lemma C6_single_step_witness :
  ∃ step,
    [stepA] = [step]
    ∧ constructCteSql [stepA] (Some 0) = Ok ("-- " +:+ summary step +:+ nl +:+ sql step)
    ∧ String.prefix "WITH " ("-- " +:+ summary step +:+ nl +:+ sql step) = false.
Proof. apply (C6_single_step [stepA] (Some 0)); [reflexivity | by right]. Defined.

(** C7. A cutoff that is negative, or at least the length of the list, makes
    [constructCteSql] throw [Invalid stepIndex: <cutoff>]; no SQL is
    produced. *)
Theorem C7_invalid_cutoff (steps : list Step) (i : Z) :
  i < 0 ∨ Z.of_nat (length steps) ≤ i →
  constructCteSql steps (Some i) = Throw (mkError ("Invalid stepIndex: " +:+ showZ i)).
Proof.
  intros Hbad. unfold constructCteSql. case_decide; [reflexivity | lia].
Qed.

Lemma C7_invalid_cutoff_witness :
  constructCteSql [stepA; stepB] (Some 2)
  = Throw (mkError ("Invalid stepIndex: " +:+ showZ 2)).
Proof. apply (C7_invalid_cutoff [stepA; stepB] 2). simpl. lia. Defined.

End CteProofs.

(** ** The repository *)

Module RepoProofs.

Import Repo.

Lemma findOneBy_id (i : Z) (st : Store) (r : ThreadResponse.t) :
  findOneBy i st = Some r → ThreadResponse.id r = i.
Proof.
  unfold findOneBy. intros [_ Hid]%find_some. by apply bool_decide_eq_true in Hid.
Qed.

Lemma findOneBy_In (i : Z) (st : Store) (r : ThreadResponse.t) :
  findOneBy i st = Some r → r ∈ rows st.
Proof.
  unfold findOneBy. intros [Hin _]%find_some. by apply list_elem_of_In.
Qed.

Lemma id_lt_nextId (st : Store) (r : ThreadResponse.t) :
  r ∈ rows st → ThreadResponse.id r < nextId st.
Proof.
  unfold nextId. induction (rows st) as [|a l IH]; [by intros ?%elem_of_nil|].
  intros [-> | Hin]%elem_of_cons; cbn [fmap list_fmap foldr]; [lia|].
  specialize (IH Hin). lia.
Qed.

Lemma findOneBy_nextId (st : Store) : findOneBy (nextId st) st = None.
Proof.
  destruct (findOneBy (nextId st) st) as [r|] eqn:Hfind; [|done].
  pose proof (findOneBy_id _ _ _ Hfind). pose proof (findOneBy_In _ _ _ Hfind) as Hin.
  apply id_lt_nextId in Hin. lia.
Qed.

Lemma find_app_Some {A} (f : A → bool) (l k : list A) (x : A) :
  List.find f l = Some x → List.find f (l ++ k) = Some x.
Proof.
  induction l as [|a l IH]; simpl; [done|]. destruct (f a); [done | exact IH].
Qed.

Lemma find_app_None {A} (f : A → bool) (l k : list A) :
  List.find f l = None → List.find f (l ++ k) = List.find f k.
Proof.
  induction l as [|a l IH]; simpl; [done|]. destruct (f a); [done | exact IH].
Qed.

(** [createOne] gives the row an id no row has, keeps every row there
    was, and logs one write. *)
Lemma createOne_spec (data : ThreadResponse.Partial) (st : Store) :
  let '(row, st') := createOne data st in
  row = ThreadResponse.fresh (nextId st) data
  ∧ findOneBy (ThreadResponse.id row) st = None
  ∧ findOneBy (ThreadResponse.id row) st' = Some row
  ∧ (∀ i r, findOneBy i st = Some r → findOneBy i st' = Some r)
  ∧ rows st' = rows st ++ [row]
  ∧ writes st' = writes st ++ [Created row].
Proof.
  simpl. split_and!; try done.
  - apply findOneBy_nextId.
  - unfold findOneBy at 1. simpl.
    rewrite find_app_None by apply findOneBy_nextId.
    simpl. by rewrite bool_decide_eq_true_2.
  - intros i r Hfind. unfold findOneBy. simpl. by apply find_app_Some.
Qed.

(** [updateOne] on a row that exists returns it with the data written
    over it, and logs one write. *)
Lemma updateOne_found (i : Z) (data : ThreadResponse.Partial) (st : Store)
    (r : ThreadResponse.t) :
  findOneBy i st = Some r →
  (updateOne i data st).1 = Some (ThreadResponse.patch data r)
  ∧ writes (updateOne i data st).2 = writes st ++ [Updated i data].
Proof.
  intros Hfind. split; [|done].
  unfold updateOne, findOneBy in *. simpl.
  induction (rows st) as [|a l IH]; simpl in *; [done|].
  destruct (bool_decide (ThreadResponse.id a = i)) eqn:Ha; simpl.
  - simplify_eq. by rewrite Ha.
  - rewrite Ha. by apply IH.
Qed.

End RepoProofs.

(** ** The asking service *)

Module AskingServiceProofs.

Import Repo AskingService RepoProofs Scenario.

(** C8. For a thread response that exists, [adjustThreadResponseWithSQL]
    creates a row with an id of its own, in the same thread and with the
    same question, holding the new SQL, whose adjustment record has type
    [APPLY_SQL] and points at the original's id; the original row, and every
    other row, is found afterwards exactly as it was. *)
Theorem C8_adjust_creates_new_response (st : Store) (threadResponseId : Z)
    (input : AdjustmentSqlInput) (original : ThreadResponse.t) :
  findOneBy threadResponseId st = Some original →
  ∃ created st',
    adjustThreadResponseWithSQL threadResponseId input st = Ok (created, st')
    ∧ ThreadResponse.id original = threadResponseId
    ∧ ThreadResponse.id created ≠ threadResponseId
    ∧ findOneBy (ThreadResponse.id created) st = None
    ∧ findOneBy (ThreadResponse.id created) st' = Some created
    ∧ ThreadResponse.threadId created = ThreadResponse.threadId original
    ∧ ThreadResponse.question created = ThreadResponse.question original
    ∧ ThreadResponse.sql created = Some (sql input)
    ∧ ThreadResponse.adjustment created
      = Some {| Adjustment.type := APPLY_SQL;
                Adjustment.payload :=
                  {| Adjustment.originalThreadResponseId := Some threadResponseId;
                     Adjustment.sql := Some (sql input) |} |}
    ∧ findOneBy threadResponseId st' = Some original
    ∧ (∀ i r, findOneBy i st = Some r → findOneBy i st' = Some r)
    ∧ rows st' = rows st ++ [created]
    ∧ writes st' = writes st ++ [Created created].
Proof.
  intros Hfind. unfold adjustThreadResponseWithSQL. rewrite Hfind.
  pose proof (findOneBy_id _ _ _ Hfind) as Hid.
  match goal with |- context [createOne ?d st] =>
    pose proof (createOne_spec d st) as Hspec; destruct (createOne d st) as [created st'] end.
  destruct Hspec as (Hrow & Hfree & Hnew & Hkeep & Hrows & Hwrites).
  exists created, st'. split_and!; try done.
  - intros Heq. rewrite Heq in Hfree. congruence.
  - by rewrite Hrow.
  - by rewrite Hrow.
  - by rewrite Hrow.
  - rewrite Hrow. simpl. by rewrite Hid.
  - by apply Hkeep.
Qed.

Lemma C8_adjust_creates_new_response_witness :
  ∃ created st',
    adjustThreadResponseWithSQL 7 {| sql := "SELECT 1" |} table7 = Ok (created, st')
    ∧ ThreadResponse.id response7 = 7
    ∧ ThreadResponse.id created ≠ 7
    ∧ findOneBy (ThreadResponse.id created) table7 = None
    ∧ findOneBy (ThreadResponse.id created) st' = Some created
    ∧ ThreadResponse.threadId created = ThreadResponse.threadId response7
    ∧ ThreadResponse.question created = ThreadResponse.question response7
    ∧ ThreadResponse.sql created = Some "SELECT 1"
    ∧ ThreadResponse.adjustment created
      = Some {| Adjustment.type := APPLY_SQL;
                Adjustment.payload :=
                  {| Adjustment.originalThreadResponseId := Some 7;
                     Adjustment.sql := Some "SELECT 1" |} |}
    ∧ findOneBy 7 st' = Some response7
    ∧ (∀ i r, findOneBy i table7 = Some r → findOneBy i st' = Some r)
    ∧ rows st' = rows table7 ++ [created]
    ∧ writes st' = writes table7 ++ [Created created].
Proof.
  apply (C8_adjust_creates_new_response table7 7 {| sql := "SELECT 1" |} response7).
  reflexivity.
Defined.

(** C10. For a thread response that exists:
    when its answer detail already has the requested status,
    [changeThreadResponseAnswerDetailStatus] returns [undefined] and leaves
    the repository, write log included, as it was; when the status differs
    (or there is no answer detail yet), it does one [updateOne] and returns
    the updated row, whose answer detail has the requested status and
    content.  So a write and a returned row occur exactly when the status
    differs. *)
Theorem C10_change_status_same_is_noop (st : Store) (responseId : Z)
    (status : ThreadResponseAnswerStatus) (content : option string)
    (response : ThreadResponse.t) :
  findOneBy responseId st = Some response →
  let current := ThreadResponse.answerDetail response ≫= AnswerDetail.status in
  (current = Some status →
     changeThreadResponseAnswerDetailStatus responseId status content st = Ok (None, st))
  ∧ (current ≠ Some status →
     ∃ updated st',
       changeThreadResponseAnswerDetailStatus responseId status content st
         = Ok (Some updated, st')
       ∧ writes st' ≠ writes st
       ∧ writes st'
         = writes st
             ++ [Updated responseId
                   {| ThreadResponse.p_threadId := None;
                      ThreadResponse.p_question := None;
                      ThreadResponse.p_sql := None;
                      ThreadResponse.p_askingTaskId := None;
                      ThreadResponse.p_breakdownDetail := None;
                      ThreadResponse.p_answerDetail :=
                        Some (changedAnswerDetail response status content);
                      ThreadResponse.p_adjustment := None |}]
       ∧ ThreadResponse.id updated = responseId
       ∧ ThreadResponse.answerDetail updated
         = Some (changedAnswerDetail response status content)).
Proof.
  intros Hfind current. unfold changeThreadResponseAnswerDetailStatus. rewrite Hfind.
  fold current. split; intros Hcur.
  - by rewrite decide_True.
  - rewrite decide_False by done.
    match goal with |- context [updateOne responseId ?d st] =>
      pose proof (updateOne_found responseId d st response Hfind) as [Hret Hlog];
      destruct (updateOne responseId d st) as [updated st'] end.
    simpl in Hret, Hlog. subst updated.
    eexists _, st'. split_and!; [done | | exact Hlog | |].
    + rewrite Hlog. intros Heq. apply (f_equal length) in Heq.
      rewrite length_app in Heq. simpl in Heq. lia.
    + simpl. by apply findOneBy_id in Hfind.
    + reflexivity.
Qed.

Lemma C10_change_status_same_is_noop_witness :
  (Some STREAMING = Some STREAMING →
     changeThreadResponseAnswerDetailStatus 7 STREAMING None tableAnswered
     = Ok (None, tableAnswered))
  ∧ (Some STREAMING ≠ Some STREAMING →
     ∃ updated st',
       changeThreadResponseAnswerDetailStatus 7 STREAMING None tableAnswered
         = Ok (Some updated, st')
       ∧ writes st' ≠ writes tableAnswered
       ∧ writes st'
         = writes tableAnswered
             ++ [Updated 7
                   {| ThreadResponse.p_threadId := None;
                      ThreadResponse.p_question := None;
                      ThreadResponse.p_sql := None;
                      ThreadResponse.p_askingTaskId := None;
                      ThreadResponse.p_breakdownDetail := None;
                      ThreadResponse.p_answerDetail :=
                        Some (changedAnswerDetail answered7 STREAMING None);
                      ThreadResponse.p_adjustment := None |}]
       ∧ ThreadResponse.id updated = 7
       ∧ ThreadResponse.answerDetail updated
         = Some (changedAnswerDetail answered7 STREAMING None)).
Proof.
  apply (C10_change_status_same_is_noop tableAnswered 7 STREAMING None answered7).
  reflexivity.
Defined.

End AskingServiceProofs.

(** ** Deployment *)

Module DeployProofs.

Import Adaptor Scenario.

(** While the service answers [INDEXING], the loop goes through all the
    wait times it was given: one request and one timer for each. *)
Lemma waitLoop_indexing (remote : Remote) (deployId : string) (wts : list Z) :
  ∀ (deploySuccess : bool) (w : Trace),
    (∀ k, (length (requests w) ≤ k < length (requests w) + length wts)%nat →
          getDeployStatus (statusReply remote k) = Ok RubixSystemStatus.INDEXING) →
    waitLoop remote deployId wts deploySuccess w
    = (Ok (Some deploySuccess),
       mkTrace (requests w ++ replicate (length wts) deployId)
               (timers w ++ (millis <$> wts))).
Proof.
  induction wts as [|waitTime wts IH]; intros deploySuccess w Hidx; simpl.
  - rewrite !app_nil_r. by destruct w.
  - rewrite Hidx by (simpl; lia).
    rewrite decide_False by discriminate. rewrite decide_False by discriminate.
    rewrite decide_True by reflexivity.
    rewrite IH; simpl.
    + rewrite <- !app_assoc. reflexivity.
    + intros k Hk. apply Hidx. rewrite length_app in Hk. simpl in *. lia.
Qed.

(** Whatever the service answers, the loop stops after at most one
    request per wait time, and the timers it armed are the first wait
    times, in order. *)
Lemma waitLoop_bounded (remote : Remote) (deployId : string) (wts : list Z) :
  ∀ (deploySuccess : bool) (w : Trace),
  ∃ (n m : nat),
    (m ≤ n ≤ length wts)%nat
    ∧ requests (waitLoop remote deployId wts deploySuccess w).2
      = requests w ++ replicate n deployId
    ∧ timers (waitLoop remote deployId wts deploySuccess w).2
      = timers w ++ (millis <$> take m wts).
Proof.
  induction wts as [|waitTime wts IH]; intros deploySuccess w; simpl.
  - exists 0%nat, 0%nat. simpl. rewrite !app_nil_r. split; [lia | done].
  - destruct (getDeployStatus (statusReply remote (length (requests w)))) as [status|err].
    2:{ exists 1%nat, 0%nat. simpl. rewrite app_nil_r. split; [lia | done]. }
    repeat case_decide;
      try (exists 1%nat, 0%nat; simpl; rewrite app_nil_r; split; [lia | done]).
    match goal with |- context [waitLoop remote deployId wts deploySuccess ?w1] =>
      destruct (IH deploySuccess w1) as (n & m & Hnm & Hreq & Htim) end.
    exists (S n), (S m). simpl in *. rewrite Hreq, Htim, <- !app_assoc.
    split; [lia | done].
Qed.

(** C9. [deploy] never throws: it always returns a response.  It sends at
    most 7 status requests, and the timers it arms between them are an
    initial part of 1 s, 2 s, .., 7 s (28 s in all).  When the deployment
    was accepted and each of the 7 status requests is answered
    [INDEXING], it returns [FAILED] with the message
    [Rubix: Deploy Rubix failed or timeout, hash: <hash>], after exactly
    7 requests and all 7 timers. *)
Theorem C9_deploy_bounded_wait (remote : Remote) (deployData : DeployData) :
  (∃ response w (m : nat),
     deploy remote deployData noTrace = (Ok response, w)
     ∧ (length (requests w) ≤ 7)%nat
     ∧ timers w = take m backoff
     ∧ foldr Z.add 0 (timers w) ≤ 28000)
  ∧ (∀ deployId,
       postReply remote = Ok deployId →
       (∀ k, (k < 7)%nat →
             getDeployStatus (statusReply remote k) = Ok RubixSystemStatus.INDEXING) →
       deploy remote deployData noTrace
       = (Ok {| status := RubixDeployStatusEnum.FAILED;
                error := Some ("Rubix: Deploy Rubix failed or timeout, hash: "
                                 +:+ hash deployData) |},
          {| requests := replicate 7 deployId; timers := backoff |})).
Proof.
  split.
  - unfold deploy. destruct (postReply remote) as [deployId|err].
    2:{ eexists _, noTrace, 0%nat. simpl. split_and!; [done | lia | done | lia]. }
    unfold waitDeployFinished.
    destruct (waitLoop_bounded remote deployId waitTimes false noTrace)
      as (n & m & Hnm & Hreq & Htim).
    destruct (waitLoop remote deployId waitTimes false noTrace) as [waited w] eqn:Hloop.
    simpl in Hreq, Htim.
    assert (Hbound : (length (requests w) ≤ 7)%nat
                     ∧ timers w = take m backoff
                     ∧ foldr Z.add 0 (timers w) ≤ 28000).
    { rewrite Hreq, Htim, length_replicate. change (length waitTimes) with 7%nat in Hnm.
      split; [lia|]. split.
      - change backoff with (millis <$> waitTimes). by rewrite fmap_take.
      - destruct Hnm as [Hm Hn].
        do 8 (destruct m as [|m]; [vm_compute; discriminate|]). lia. }
    destruct waited as [[[|]|]|err]; eexists _, w, m; (split; [reflexivity | exact Hbound]).
  - intros deployId Hpost Hidx. unfold deploy, waitDeployFinished. rewrite Hpost.
    rewrite waitLoop_indexing; [reflexivity|].
    intros k Hk. apply Hidx. simpl in Hk. change (length waitTimes) with 7%nat in Hk. lia.
Qed.

Lemma C9_deploy_bounded_wait_witness :
  deploy alwaysIndexing (mkDeployData "{}" "abc123") noTrace
  = (Ok {| status := RubixDeployStatusEnum.FAILED;
           error := Some "Rubix: Deploy Rubix failed or timeout, hash: abc123" |},
     {| requests := replicate 7 "deploy-1"; timers := backoff |}).
Proof.
  apply (proj2 (C9_deploy_bounded_wait alwaysIndexing (mkDeployData "{}" "abc123"))
           "deploy-1").
  - reflexivity.
  - intros k _. reflexivity.
Defined.

End DeployProofs.

(** ** The background tracker *)

Module TrackerProofs.

Import Adaptor Tracker Scenario.

(** *** Lists without duplicates *)

Lemma NoDup_delete {A} (l : list A) (n : nat) : NoDup l → NoDup (delete n l).
Proof. intros Hnd. eapply sublist_NoDup; [exact Hnd | apply sublist_delete]. Qed.

Lemma NoDup_delete_lookup {A} (l : list A) (n : nat) (x : A) :
  NoDup l → l !! n = Some x → x ∉ delete n l.
Proof.
  intros Hnd Hl. rewrite delete_take_drop.
  rewrite <- (take_drop_middle l n x Hl) in Hnd.
  apply NoDup_app in Hnd as (_ & Hdisj & Hnd2).
  apply NoDup_cons in Hnd2 as [Hx _].
  intros [Hin|Hin]%elem_of_app; [|by apply Hx].
  apply (Hdisj x Hin). left.
Qed.

Lemma NoDup_fmap_filter_length {A B} `{EqDecision B} (f : A → B) (l : list A) (b : B) :
  NoDup (f <$> l) → (length (filter (λ x, f x = b) l) ≤ 1)%nat.
Proof.
  induction l as [|a l IH]; [simpl; lia|].
  rewrite fmap_cons, NoDup_cons. intros [Hnotin Hnd].
  rewrite filter_cons. case_decide as Hab; [|by apply IH].
  assert (Hnone : filter (λ x, f x = b) l = []).
  { destruct (filter (λ x, f x = b) l) as [|x k] eqn:Hf; [done|]. exfalso.
    assert (x ∈ filter (λ x, f x = b) l) as [Hfx Hx]%list_elem_of_filter
      by (rewrite Hf; left).
    apply Hnotin. rewrite Hab, <- Hfx. by apply list_elem_of_fmap_2. }
  rewrite Hnone. simpl. lia.
Qed.

(** *** The running-jobs guard *)

Lemma guarded_init (st : Repo.Store) : guarded (init st).
Proof. split; [constructor | by intros i ?%elem_of_nil]. Qed.

Lemma startJob_guarded (s : State) (threadResponse : ThreadResponse.t) :
  guarded s → guarded (startJob s threadResponse).
Proof.
  intros [Hnd Hmark]. unfold startJob. case_decide as Hrun; [by split|].
  destruct (ThreadResponse.breakdownDetail threadResponse) as [d|];
    unfold guarded, inflight; simpl.
  - rewrite fmap_app. simpl. split.
    + apply NoDup_app. split_and!; [done | | apply NoDup_singleton].
      intros i Hin ->%list_elem_of_singleton. by apply Hrun, Hmark.
    + intros i [Hin | ->%list_elem_of_singleton]%elem_of_app; [|set_solver].
      apply Hmark in Hin. set_solver.
  - split; [done|]. intros i Hin. apply Hmark in Hin. set_solver.
Qed.

Lemma foldl_startJob_guarded (l : list ThreadResponse.t) (s : State) :
  guarded s → guarded (foldl startJob s l).
Proof.
  revert s. induction l as [|a l IH]; intros s Hs; [done|].
  simpl. by apply IH, startJob_guarded.
Qed.

Lemma fetchSettled_guarded (n : nat) (outcome : result AskDetailResult.t) (s s' : State) :
  guarded s → fetchSettled n outcome s = Some s' → guarded s'.
Proof.
  intros [Hnd Hmark]. unfold fetchSettled.
  destruct (pending s !! n) as [[tr d|tr d r]|] eqn:Hjob; [|done..].
  assert (Hn : inflight s !! n = Some (ThreadResponse.id tr)).
  { unfold inflight. by rewrite list_lookup_fmap, Hjob. }
  destruct outcome as [result|err]; [case_decide|]; intros [= <-];
    unfold guarded, inflight; simpl.
  - rewrite list_fmap_delete. split; [by apply NoDup_delete|].
    intros i Hin. apply elem_of_difference. split.
    + by eapply Hmark, list_elem_of_delete_inv.
    + intros ->%elem_of_singleton. by eapply NoDup_delete_lookup.
  - rewrite list_fmap_insert. simpl. fold (inflight s).
    by rewrite list_insert_id.
  - rewrite list_fmap_delete. split; [by apply NoDup_delete|].
    intros i Hin. by eapply Hmark, list_elem_of_delete_inv.
Qed.

Lemma updateSettled_guarded (n : nat) (outcome : result unit) (s s' : State) :
  guarded s → updateSettled n outcome s = Some s' → guarded s'.
Proof.
  intros [Hnd Hmark]. unfold updateSettled.
  destruct (pending s !! n) as [[tr d|tr d r]|] eqn:Hjob; [done| |done].
  assert (Hn : inflight s !! n = Some (ThreadResponse.id tr)).
  { unfold inflight. by rewrite list_lookup_fmap, Hjob. }
  assert (Hdone : NoDup (entity <$> delete n (pending s))
                  ∧ ∀ i, i ∈ entity <$> delete n (pending s)
                         → i ∈ runningJobs s ∖ {[ThreadResponse.id tr]}).
  { rewrite list_fmap_delete. split; [by apply NoDup_delete|].
    intros i Hin. apply elem_of_difference. split.
    - by eapply Hmark, list_elem_of_delete_inv.
    - intros ->%elem_of_singleton. by eapply NoDup_delete_lookup. }
  destruct outcome as [[]|err]; [destruct (isFinalized _)|]; intros [= <-];
    unfold guarded, inflight; simpl; [done | done |].
  rewrite list_fmap_delete. split; [by apply NoDup_delete|].
  intros i Hin. by eapply Hmark, list_elem_of_delete_inv.
Qed.

Lemma step_guarded (s s' : State) (ev : Event) :
  guarded s → step s ev = Some s' → guarded s'.
Proof.
  intros Hs. destruct ev as [|tr|n outcome|n outcome]; simpl.
  - intros [= <-]. by apply foldl_startJob_guarded.
  - by intros [= <-].
  - by apply fetchSettled_guarded.
  - by apply updateSettled_guarded.
Qed.

Lemma run_guarded (evs : list Event) (s s' : State) :
  guarded s → run s evs = Some s' → guarded s'.
Proof.
  revert s. induction evs as [|ev evs IH]; intros s Hs; simpl.
  - by intros [= <-].
  - destruct (step s ev) as [s1|] eqn:Hstep; [|done]. simpl.
    apply IH. by eapply step_guarded.
Qed.

(** *** What a timer tick leaves alone *)

Lemma startJob_tasks (s : State) (threadResponse : ThreadResponse.t) :
  tasks (startJob s threadResponse) = tasks s
  ∧ store (startJob s threadResponse) = store s.
Proof.
  unfold startJob. case_decide; [done|].
  by destruct (ThreadResponse.breakdownDetail threadResponse).
Qed.

Lemma foldl_startJob_tasks (l : list ThreadResponse.t) (s : State) :
  tasks (foldl startJob s l) = tasks s ∧ store (foldl startJob s l) = store s.
Proof.
  revert s. induction l as [|a l IH]; intros s; [done|]. simpl.
  destruct (IH (startJob s a)) as [-> ->]. apply startJob_tasks.
Qed.

Lemma tick_tasks (s : State) : tasks (tick s) = tasks s ∧ store (tick s) = store s.
Proof. apply foldl_startJob_tasks. Qed.

(** An entity that carries the running mark is skipped by a job start:
    no job and no fetch is added for it, and the mark stays. *)
Lemma startJob_skips (i : Z) (s : State) (threadResponse : ThreadResponse.t) :
  i ∈ runningJobs s →
  i ∈ runningJobs (startJob s threadResponse)
  ∧ filter (λ job, entity job = i) (pending (startJob s threadResponse))
    = filter (λ job, entity job = i) (pending s)
  ∧ fetchesFor i (startJob s threadResponse) = fetchesFor i s.
Proof.
  intros Hi. unfold startJob, fetchesFor. case_decide as Hrun; [done|].
  assert (ThreadResponse.id threadResponse ≠ i) as Hne by congruence.
  destruct (ThreadResponse.breakdownDetail threadResponse) as [d|]; simpl.
  - split; [set_solver|]. rewrite !filter_app, !filter_cons, !filter_nil. simpl.
    rewrite !decide_False by done. by rewrite !app_nil_r.
  - split; [set_solver | done].
Qed.

Lemma foldl_startJob_skips (i : Z) (l : list ThreadResponse.t) (s : State) :
  i ∈ runningJobs s →
  i ∈ runningJobs (foldl startJob s l)
  ∧ filter (λ job, entity job = i) (pending (foldl startJob s l))
    = filter (λ job, entity job = i) (pending s)
  ∧ fetchesFor i (foldl startJob s l) = fetchesFor i s.
Proof.
  revert s. induction l as [|a l IH]; intros s Hi; [done|]. simpl.
  destruct (startJob_skips i s a Hi) as (Hi' & Hp & Hf).
  destruct (IH _ Hi') as (? & -> & ->). by rewrite Hp, Hf.
Qed.

(** C1. In every state the tracker can reach from its construction, by
    timer ticks, registrations and settlements of fetches and writes in
    any order: each entity has at most one poll in flight; an entity with
    a poll in flight carries the running mark (the mark is set when the
    fetch is issued and is not cleared while the poll is suspended); and if
    the timer fires in that state, the entity is skipped -- no second job
    and no second fetch is issued for it, and its poll stays the one in
    flight. *)
Theorem C1_one_poll_in_flight (st : Repo.Store) (evs : list Event) (s : State) (i : Z) :
  run (init st) evs = Some s →
  (inflightCount i s ≤ 1)%nat
  ∧ (i ∈ inflight s →
     i ∈ runningJobs s
     ∧ inflightCount i (tick s) = inflightCount i s
     ∧ fetchesFor i (tick s) = fetchesFor i s
     ∧ (inflightCount i (tick s) ≤ 1)%nat).
Proof.
  intros Hrun.
  assert (Hg : guarded s) by (eapply run_guarded; [apply guarded_init | exact Hrun]).
  destruct Hg as [Hnd Hmark].
  assert (Hone : (inflightCount i s ≤ 1)%nat) by by apply NoDup_fmap_filter_length.
  split; [exact Hone|]. intros Hin. specialize (Hmark i Hin).
  destruct (foldl_startJob_skips i (objectValues (tasks s)) s Hmark) as (_ & Hp & Hf).
  unfold inflightCount, tick. rewrite Hp. fold (inflightCount i s).
  split_and!; done.
Qed.

(** *** A concrete run *)

Lemma C1_one_poll_in_flight_witness :
  (inflightCount 7 (tick polling7) ≤ 1)%nat
  ∧ (7 ∈ inflight (tick polling7) →
     7 ∈ runningJobs (tick polling7)
     ∧ inflightCount 7 (tick (tick polling7)) = inflightCount 7 (tick polling7)
     ∧ fetchesFor 7 (tick (tick polling7)) = fetchesFor 7 (tick polling7)
     ∧ (inflightCount 7 (tick (tick polling7)) ≤ 1)%nat).
Proof.
  apply (C1_one_poll_in_flight table [AddTask tracked7; Tick; Tick] (tick polling7) 7).
  reflexivity.
Defined.

(** The scenario is not vacuous: after the two ticks one poll of entity 7
    is in flight and one fetch has been issued. *)
Example polling7_twice :
  inflight (tick polling7) = [7] ∧ fetches (tick polling7) = [(7, "query-7")].
Proof. by vm_compute. Qed.

(** *** Removal from the task map *)

(** C2 as the specification states it fails.  Entity 7 is being polled and
    the fetch returns [FINISHED]; the job then awaits its write.  If the
    timer fires before the write has settled, or if the write is rejected,
    entity 7 is still in the task map after that tick. *)
Lemma C2_counterexample :
  ¬ removedByNextTick polling7 0 (fetched AskResultStatus.FINISHED) []
  ∧ ¬ removedByNextTick polling7 0 (fetched AskResultStatus.FINISHED)
        [UpdateSettled 0 (Throw (mkError "connection lost"))].
Proof.
  assert (Hjob : pending polling7 !! 0%nat
                 = Some (AwaitFetch tracked7
                           (detail "query-7" AskResultStatus.UNDERSTANDING)))
    by (by vm_compute).
  split; intros Hclaim.
  - destruct (run polling7
                (FetchSettled 0 (Ok (fetched AskResultStatus.FINISHED)) :: [] ++ [Tick]))
      as [s'|] eqn:Hrun; [|by vm_compute in Hrun].
    specialize (Hclaim _ _ s' Hjob eq_refl Hrun).
    vm_compute in Hrun. injection Hrun as <-. vm_compute in Hclaim. discriminate.
  - destruct (run polling7
                (FetchSettled 0 (Ok (fetched AskResultStatus.FINISHED))
                   :: [UpdateSettled 0 (Throw (mkError "connection lost"))] ++ [Tick]))
      as [s'|] eqn:Hrun; [|by vm_compute in Hrun].
    specialize (Hclaim _ _ s' Hjob eq_refl Hrun).
    vm_compute in Hrun. injection Hrun as <-. vm_compute in Hclaim. discriminate.
Qed.

(** C2, as amended.  An entity leaves the task map only in the step in
    which a job of that entity whose fetched status is terminal
    ([FINISHED], [FAILED] or [STOPPED]) resumes after its write has been
    done; no other step, and no poll with a non-terminal status, removes
    it.  And when a poll of an entity tracked with a non-terminal status
    fetches a terminal status, the job goes on to write the new detail,
    the map being unchanged meanwhile; when that write has been done the
    entity is removed and its running mark released, so that it is absent
    at the tick that follows. *)
Theorem C2_removed_when_terminal_poll_completes
    (s s' : State) (ev : Event) (i : Z) (x : ThreadResponse.t)
    (p : State) (n : nat) (tr : ThreadResponse.t) (d : BreakdownDetail.t)
    (result : AskDetailResult.t) :
  (step s ev = Some s' → tasks s !! i = Some x → tasks s' !! i = None →
   ∃ m tr' d' result',
     ev = UpdateSettled m (Ok tt)
     ∧ pending s !! m = Some (AwaitUpdate tr' d' result')
     ∧ ThreadResponse.id tr' = i
     ∧ isFinalized (AskDetailResult.status result') = true)
  ∧ (pending p !! n = Some (AwaitFetch tr d) →
     isFinalized (BreakdownDetail.status d) = false →
     isFinalized (AskDetailResult.status result) = true →
     ∃ p1 p2,
       step p (FetchSettled n (Ok result)) = Some p1
       ∧ tasks p1 = tasks p
       ∧ pending p1 !! n = Some (AwaitUpdate tr d result)
       ∧ step p1 (UpdateSettled n (Ok tt)) = Some p2
       ∧ tasks p2 = delete (ThreadResponse.id tr) (tasks p)
       ∧ (ThreadResponse.id tr ∉ runningJobs p2)
       ∧ tasks (tick p2) !! ThreadResponse.id tr = None).
Proof.
  split.
  - intros Hstep Hin Hout. destruct ev as [|tr0|m outcome|m outcome]; simpl in Hstep.
    + injection Hstep as <-. rewrite (proj1 (tick_tasks s)) in Hout. congruence.
    + injection Hstep as <-. simpl in Hout.
      destruct (decide (ThreadResponse.id tr0 = i)) as [<-|Hne].
      * by rewrite lookup_insert_eq in Hout.
      * rewrite lookup_insert_ne in Hout by done. congruence.
    + unfold fetchSettled in Hstep.
      destruct (pending s !! m) as [[tr0 d0|tr0 d0 r0]|]; [|done..].
      destruct outcome as [r|err]; [case_decide|]; injection Hstep as <-;
        simpl in Hout; congruence.
    + unfold updateSettled in Hstep.
      destruct (pending s !! m) as [[tr0 d0|tr0 d0 r0]|] eqn:Hjob; [done| |done].
      destruct outcome as [[]|err].
      2:{ injection Hstep as <-. simpl in Hout. congruence. }
      destruct (isFinalized (AskDetailResult.status r0)) eqn:Hfin.
      2:{ injection Hstep as <-. simpl in Hout. congruence. }
      injection Hstep as <-. simpl in Hout.
      destruct (decide (ThreadResponse.id tr0 = i)) as [Hid|Hne].
      * by exists m, tr0, d0, r0.
      * rewrite lookup_delete_ne in Hout by done. congruence.
  - intros Hjob Hsnap Hfin.
    assert (Hch : BreakdownDetail.status d ≠ AskDetailResult.status result)
      by (intros Heq; rewrite Heq in Hsnap; congruence).
    eexists _, _. split.
    { simpl. unfold fetchSettled. rewrite Hjob. by rewrite decide_False. }
    assert (Hn : (n < length (pending p))%nat) by (by eapply lookup_lt_Some).
    simpl. split; [done|]. split; [by apply list_lookup_insert_eq|]. split.
    { unfold updateSettled. simpl. rewrite list_lookup_insert_eq by done.
      rewrite Hfin. reflexivity. }
    simpl. split; [done|]. split.
    { apply not_elem_of_difference. right. by apply elem_of_singleton. }
    rewrite (proj1 (tick_tasks _)). simpl. apply lookup_delete_eq.
Qed.

Lemma C2_removed_when_terminal_poll_completes_witness :
  (∃ m tr' d' result',
     UpdateSettled 0 (Ok tt) = UpdateSettled m (Ok tt)
     ∧ pending finishing7 !! m = Some (AwaitUpdate tr' d' result')
     ∧ ThreadResponse.id tr' = 7
     ∧ isFinalized (AskDetailResult.status result') = true)
  ∧ (∃ p1 p2,
       step polling7 (FetchSettled 0 (Ok (fetched AskResultStatus.FINISHED))) = Some p1
       ∧ tasks p1 = tasks polling7
       ∧ pending p1 !! 0%nat
         = Some (AwaitUpdate tracked7 (detail "query-7" AskResultStatus.UNDERSTANDING)
                   (fetched AskResultStatus.FINISHED))
       ∧ step p1 (UpdateSettled 0 (Ok tt)) = Some p2
       ∧ tasks p2 = delete (ThreadResponse.id tracked7) (tasks polling7)
       ∧ (ThreadResponse.id tracked7 ∉ runningJobs p2)
       ∧ tasks (tick p2) !! ThreadResponse.id tracked7 = None).
Proof.
  destruct (C2_removed_when_terminal_poll_completes
              finishing7 finished7 (UpdateSettled 0 (Ok tt)) 7 tracked7
              polling7 0 tracked7 (detail "query-7" AskResultStatus.UNDERSTANDING)
              (fetched AskResultStatus.FINISHED)) as [Honly Hif].
  split.
  - apply Honly; by vm_compute.
  - apply Hif; by vm_compute.
Defined.

(** *** Polls that find the status unchanged *)

(** A poll whose fetched status equals the status in the job's copy of
    the detail (the one the entity was registered with) ends there: no
    write is asked for, the running mark is released, the entity stays in
    the task map. *)
Lemma fetch_same_as_snapshot (s : State) (n : nat) (tr : ThreadResponse.t)
    (d : BreakdownDetail.t) (result : AskDetailResult.t) :
  pending s !! n = Some (AwaitFetch tr d) →
  BreakdownDetail.status d = AskDetailResult.status result →
  ∃ s',
    step s (FetchSettled n (Ok result)) = Some s'
    ∧ store s' = store s
    ∧ tasks s' = tasks s
    ∧ pending s' = delete n (pending s)
    ∧ runningJobs s' = runningJobs s ∖ {[ThreadResponse.id tr]}.
Proof.
  intros Hjob Hsame. eexists. simpl. unfold fetchSettled.
  rewrite Hjob. rewrite decide_True by done. done.
Qed.

(** A job that is rejected -- its fetch or its write fails -- ends without
    releasing the running mark: the entity stays in the task map, and every
    later tick skips it. *)
Lemma rejected_fetch_keeps_mark (s : State) (n : nat) (tr : ThreadResponse.t)
    (d : BreakdownDetail.t) (err : Error) :
  guarded s →
  pending s !! n = Some (AwaitFetch tr d) →
  ∃ s',
    step s (FetchSettled n (Throw err)) = Some s'
    ∧ tasks s' = tasks s
    ∧ ThreadResponse.id tr ∈ runningJobs s'
    ∧ fetchesFor (ThreadResponse.id tr) (tick s') = fetchesFor (ThreadResponse.id tr) s'.
Proof.
  intros [_ Hmark] Hjob. eexists. simpl. unfold fetchSettled. rewrite Hjob.
  split; [reflexivity|]. simpl. split; [done|].
  assert (Hin : ThreadResponse.id tr ∈ runningJobs s).
  { apply Hmark. unfold inflight. apply list_elem_of_fmap.
    exists (AwaitFetch tr d). split; [done|]. by eapply list_elem_of_lookup_2. }
  split; [done|]. by apply foldl_startJob_skips.
Qed.

(** The scenario of the specification: registered with [UNDERSTANDING], a
    first poll that fetches [UNDERSTANDING] writes nothing; a second poll
    that fetches [FINISHED] writes the detail and deregisters the entity. *)
Example breakdown_end_to_end :
  ∃ s1 s2,
    run polling7 [FetchSettled 0 (Ok (fetched AskResultStatus.UNDERSTANDING)); Tick] = Some s1
    ∧ Repo.writes (store s1) = []
    ∧ inflight s1 = [7]
    ∧ run s1 [FetchSettled 0 (Ok (fetched AskResultStatus.FINISHED));
              UpdateSettled 0 (Ok tt)] = Some s2
    ∧ persistedStatus 7 s2 = Some AskResultStatus.FINISHED
    ∧ tasks s2 !! 7 = None
    ∧ elements (runningJobs s2) = [].
Proof.
  eexists _, _. split_and!; [reflexivity | by vm_compute.. | reflexivity | | |];
    by vm_compute.
Qed.

(** C4 fails on the code.  Entity 7 is registered with [UNDERSTANDING].
    A first poll fetches [SEARCHING] and writes it.  The copy the tracker
    holds is not refreshed, so when the next poll fetches [SEARCHING]
    again -- the status the table already holds -- the job does not stop:
    it keeps the running mark, asks for the same write again, and a second
    write is done. *)
Lemma C4_unchanged_status_written_again :
  ∃ s1 s2 s3,
    run polling7 [FetchSettled 0 (Ok (fetched AskResultStatus.SEARCHING));
                  UpdateSettled 0 (Ok tt); Tick] = Some s1
    ∧ persistedStatus 7 s1 = Some AskResultStatus.SEARCHING
    ∧ length (Repo.writes (store s1)) = 1%nat
    ∧ step s1 (FetchSettled 0 (Ok (fetched AskResultStatus.SEARCHING))) = Some s2
    ∧ pending s2
      = [AwaitUpdate tracked7 (detail "query-7" AskResultStatus.UNDERSTANDING)
           (fetched AskResultStatus.SEARCHING)]
    ∧ elements (runningJobs s2) = [7]
    ∧ step s2 (UpdateSettled 0 (Ok tt)) = Some s3
    ∧ persistedStatus 7 s3 = Some AskResultStatus.SEARCHING
    ∧ length (Repo.writes (store s3)) = 2%nat.
Proof.
  eexists _, _, _. split_and!; [reflexivity | by vm_compute.. | reflexivity | | | | |].
  - by vm_compute.
  - by vm_compute.
  - reflexivity.
  - by vm_compute.
  - by vm_compute.
Qed.

End TrackerProofs.

(** ** Status strings from the wire *)

Module StatusProofs.

Import Adaptor Tracker Scenario TrackerProofs.

Lemma toUpperCase_empty (w : string) : toUpperCase w = "" ↔ w = "".
Proof. by destruct w. Qed.

Lemma truthy_toUpperCase (w : string) : w ≠ "" → truthy (Some (toUpperCase w)) = true.
Proof.
  intros Hw. unfold truthy. rewrite bool_decide_eq_false_2; [done|].
  by rewrite toUpperCase_empty.
Qed.

(** C3 as the specification states it fails: the status [bogus] is in no
    enumeration, and is returned, upper-cased, without any error. *)
Lemma C3_counterexample :
  ¬ unknownStatusIsFatal plainErrors (bodyWithStatus (Some "bogus")).
Proof.
  intros Hclaim. destruct (Hclaim "bogus" eq_refl) as [err Herr].
  - vm_compute. intros Hin. repeat (inversion Hin as [|? ? ? Hin']; clear Hin; rename Hin' into Hin).
  - vm_compute in Herr. discriminate.
Qed.

(** C3, as amended.  The status string of a result body is upper-cased,
    and that is all: whenever it is a non-empty string, in the enumeration
    or not, the transformation returns it upper-cased and does not throw.
    Only a status that is missing or empty makes the transformation, and
    with it [getAskDetailResult], throw [Unknown ask status: ..].  When the
    fetch of a suspended job settles with that error, only that job ends:
    the error is recorded as the job's rejection, the task map (the entity
    included) and the table are as before, the other suspended jobs are
    untouched, and the timer can tick again. *)
Theorem C3_status_uppercased_missing_is_fatal
    (E : Errors.t) (body : Body.t) (s : State) (n : nat)
    (tr : ThreadResponse.t) (d : BreakdownDetail.t) :
  (∀ w, Body.status body = Some w → w ≠ "" →
        ∃ error, transformStatusAndError E body = Ok (toUpperCase w, error))
  ∧ (Body.status body = None ∨ Body.status body = Some "" →
     pending s !! n = Some (AwaitFetch tr d) →
     let err := mkError ("Unknown ask status: " +:+ showOpt (Body.status body)) in
     transformStatusAndError E body = Throw err
     ∧ getAskDetailResult E (Ok body) = Throw err
     ∧ ∃ s',
         step s (FetchSettled n (getAskDetailResult E (Ok body))) = Some s'
         ∧ rejections s' = rejections s ++ [err]
         ∧ tasks s' = tasks s
         ∧ store s' = store s
         ∧ pending s' = delete n (pending s)
         ∧ is_Some (step s' Tick)).
Proof.
  split.
  - intros w Hw Hne. unfold transformStatusAndError. rewrite Hw. simpl fmap.
    rewrite truthy_toUpperCase by done. simpl. eauto.
  - intros Hmissing Hjob err.
    assert (Hthrow : transformStatusAndError E body = Throw err).
    { subst err. unfold transformStatusAndError.
      by destruct Hmissing as [Hm | Hm]; rewrite Hm. }
    assert (Hget : getAskDetailResult E (Ok body) = Throw err).
    { unfold getAskDetailResult, transformAskDetailResult. by rewrite Hthrow. }
    split; [exact Hthrow|]. split; [exact Hget|].
    rewrite Hget. eexists. simpl. unfold fetchSettled. rewrite Hjob.
    split; [reflexivity|]. simpl. split_and!; done.
Qed.

Lemma C3_status_uppercased_missing_is_fatal_witness :
  (∃ error,
     transformStatusAndError plainErrors (bodyWithStatus (Some "finished"))
     = Ok (toUpperCase "finished", error))
  ∧ (let err := mkError ("Unknown ask status: " +:+ showOpt None) in
     transformStatusAndError plainErrors (bodyWithStatus None) = Throw err
     ∧ getAskDetailResult plainErrors (Ok (bodyWithStatus None)) = Throw err
     ∧ ∃ s',
         step polling7
           (FetchSettled 0 (getAskDetailResult plainErrors (Ok (bodyWithStatus None))))
         = Some s'
         ∧ rejections s' = rejections polling7 ++ [err]
         ∧ tasks s' = tasks polling7
         ∧ store s' = store polling7
         ∧ pending s' = delete 0%nat (pending polling7)
         ∧ is_Some (step s' Tick)).
Proof.
  split.
  - apply (proj1 (C3_status_uppercased_missing_is_fatal
                    plainErrors (bodyWithStatus (Some "finished")) polling7 0 tracked7
                    (detail "query-7" AskResultStatus.UNDERSTANDING)) "finished");
      [reflexivity | discriminate].
  - apply (proj2 (C3_status_uppercased_missing_is_fatal
                    plainErrors (bodyWithStatus None) polling7 0 tracked7
                    (detail "query-7" AskResultStatus.UNDERSTANDING)));
      [by left | by vm_compute].
Defined.

End StatusProofs.

(** * Further properties *)

(** ** CTE assembly *)

Module CteMore.

Import Cte.

(** A valid cutoff only truncates: [constructCteSql] with cutoff [i] is
    [constructCteSql] without cutoff on the first [i + 1] steps. *)
Theorem constructCteSql_cutoff_truncates (steps : list Step) (i : Z) :
  0 ≤ i < Z.of_nat (length steps) →
  constructCteSql steps (Some i) = constructCteSql (take (Z.to_nat (i + 1)) steps) None.
Proof.
  intros Hi. unfold constructCteSql. rewrite decide_False by lia.
  by rewrite slice0_take by lia.
Qed.

Lemma constructCteSql_cutoff_truncates_witness :
  constructCteSql [stepA; stepB; stepC] (Some 1)
  = constructCteSql (take (Z.to_nat (1 + 1)) [stepA; stepB; stepC]) None.
Proof. apply (constructCteSql_cutoff_truncates [stepA; stepB; stepC] 1). simpl. lia. Defined.

Lemma constructCteSql_Ok_valid (steps : list Step) (stepIndex : option Z) (out : string) :
  constructCteSql steps stepIndex = Ok out → validCutoff steps stepIndex.
Proof.
  destruct stepIndex as [i|]; [|done]. simpl.
  unfold constructCteSql. case_decide; [done | lia].
Qed.

(** [constructCteSql] returns a string exactly when the cutoff is omitted
    or a valid index; with the cutoff omitted it never throws, not even on
    the empty list, for which the text is the dangling [WITH ]. *)
Theorem constructCteSql_succeeds_iff_valid (steps : list Step) (stepIndex : option Z) :
  ((∃ out, constructCteSql steps stepIndex = Ok out) ↔ validCutoff steps stepIndex)
  ∧ constructCteSql [] None = Ok "WITH ".
Proof.
  split; [|reflexivity]. split.
  - intros [out Hout]. destruct stepIndex as [i|]; [|done]. simpl.
    unfold constructCteSql in Hout. case_decide; [done | lia].
  - intros Hvalid. rewrite CteProofs.constructCteSql_sliced by done. cbv zeta.
    destruct (take _ steps) as [|a [|b l]]; eauto.
Qed.

End CteMore.

(** ** The asking service *)

Module AskingServiceMoreProofs.

Import Repo AskingService AskingServiceMore RepoProofs Scenario.

Lemma patch_id (data : ThreadResponse.Partial) (r : ThreadResponse.t) :
  ThreadResponse.id (ThreadResponse.patch data r) = ThreadResponse.id r.
Proof. reflexivity. Qed.

(** [updateOne] leaves the rows with another id as they are. *)
Lemma updateOne_other (i j : Z) (data : ThreadResponse.Partial) (st : Store) :
  i ≠ j → findOneBy j (updateOne i data st).2 = findOneBy j st.
Proof.
  intros Hne. unfold updateOne, findOneBy. simpl.
  induction (rows st) as [|a l IH]; simpl; [done|].
  destruct (bool_decide (ThreadResponse.id a = i)) eqn:Ha; simpl.
  - apply bool_decide_eq_true in Ha.
    rewrite !bool_decide_eq_false_2 by congruence. exact IH.
  - destruct (bool_decide (ThreadResponse.id a = j)); [done | exact IH].
Qed.

(** [updateThreadResponse] on a response that exists returns the row with
    the new SQL and every other property as before; the rows with another
    id are found as before, and one write is logged.  On an id that is not
    there it throws [Thread response <id> not found]. *)
Theorem updateThreadResponse_changes_only_sql (st : Store) (responseId : Z) (sql : string) :
  (∀ response, findOneBy responseId st = Some response →
     ∃ st',
       updateThreadResponse responseId sql st
       = Ok (Some {| ThreadResponse.id := ThreadResponse.id response;
                     ThreadResponse.threadId := ThreadResponse.threadId response;
                     ThreadResponse.question := ThreadResponse.question response;
                     ThreadResponse.sql := Some sql;
                     ThreadResponse.askingTaskId := ThreadResponse.askingTaskId response;
                     ThreadResponse.breakdownDetail :=
                       ThreadResponse.breakdownDetail response;
                     ThreadResponse.answerDetail := ThreadResponse.answerDetail response;
                     ThreadResponse.adjustment := ThreadResponse.adjustment response |},
             st')
       ∧ (∀ j, j ≠ responseId → findOneBy j st' = findOneBy j st)
       ∧ writes st' = writes st ++ [Updated responseId (sqlPatch sql)])
  ∧ (findOneBy responseId st = None →
     updateThreadResponse responseId sql st
     = Throw (mkError ("Thread response " +:+ showZ responseId +:+ " not found"))).
Proof.
  split.
  - intros response Hfind. unfold updateThreadResponse. rewrite Hfind.
    destruct (updateOne_found responseId (sqlPatch sql) st response Hfind) as [Hret Hlog].
    destruct (updateOne responseId (sqlPatch sql) st) as [updated st'] eqn:Hupd.
    simpl in Hret, Hlog. exists st'. split_and!.
    + by rewrite Hret.
    + intros j Hj. replace st' with (updateOne responseId (sqlPatch sql) st).2
        by (by rewrite Hupd). by apply updateOne_other.
    + exact Hlog.
  - intros Hnone. unfold updateThreadResponse. by rewrite Hnone.
Qed.

Lemma updateThreadResponse_changes_only_sql_witness :
  ∃ st',
    updateThreadResponse 7 "SELECT 2" table7
    = Ok (Some {| ThreadResponse.id := ThreadResponse.id response7;
                  ThreadResponse.threadId := ThreadResponse.threadId response7;
                  ThreadResponse.question := ThreadResponse.question response7;
                  ThreadResponse.sql := Some "SELECT 2";
                  ThreadResponse.askingTaskId := ThreadResponse.askingTaskId response7;
                  ThreadResponse.breakdownDetail := ThreadResponse.breakdownDetail response7;
                  ThreadResponse.answerDetail := ThreadResponse.answerDetail response7;
                  ThreadResponse.adjustment := ThreadResponse.adjustment response7 |},
          st')
    ∧ (∀ j, j ≠ 7 → findOneBy j st' = findOneBy j table7)
    ∧ writes st' = writes table7 ++ [Updated 7 (sqlPatch "SELECT 2")].
Proof.
  apply (proj1 (updateThreadResponse_changes_only_sql table7 7 "SELECT 2") response7).
  reflexivity.
Defined.

(** Changing the answer status is idempotent: after a call of
    [changeThreadResponseAnswerDetailStatus] that wrote a status, a second
    call with the same status, whatever its content, finds the status
    unchanged, returns [undefined] and writes nothing -- so the content of
    the second call is dropped. *)
Theorem changeStatus_twice_writes_once (st st' : Store) (responseId : Z)
    (status : ThreadResponseAnswerStatus) (content content' : option string)
    (updated : ThreadResponse.t) :
  changeThreadResponseAnswerDetailStatus responseId status content st
  = Ok (Some updated, st') →
  changeThreadResponseAnswerDetailStatus responseId status content' st' = Ok (None, st').
Proof.
  unfold changeThreadResponseAnswerDetailStatus at 1.
  destruct (findOneBy responseId st) as [response|] eqn:Hfind; [|done].
  case_decide as Hcur; [done|].
  match goal with |- context [updateOne responseId ?d st] =>
    pose proof (updateOne_found responseId d st response Hfind) as [Hret _];
    destruct (updateOne responseId d st) as [u st1] eqn:Hupd end.
  simpl in Hret. intros [= Hu Hst].
  assert (Hfind' : findOneBy responseId st1 = u).
  { unfold updateOne in Hupd. injection Hupd as Hu1 Hst1. by rewrite Hst1 in Hu1. }
  subst st1. unfold changeThreadResponseAnswerDetailStatus.
  rewrite Hfind', Hret. simpl. by rewrite decide_True.
Qed.

Lemma changeStatus_twice_writes_once_witness :
  changeThreadResponseAnswerDetailStatus 7 FINISHED (Some "again")
    (updateOne 7
       {| ThreadResponse.p_threadId := None;
          ThreadResponse.p_question := None;
          ThreadResponse.p_sql := None;
          ThreadResponse.p_askingTaskId := None;
          ThreadResponse.p_breakdownDetail := None;
          ThreadResponse.p_answerDetail :=
            Some (changedAnswerDetail answered7 FINISHED (Some "done"));
          ThreadResponse.p_adjustment := None |} tableAnswered).2
  = Ok (None,
        (updateOne 7
           {| ThreadResponse.p_threadId := None;
              ThreadResponse.p_question := None;
              ThreadResponse.p_sql := None;
              ThreadResponse.p_askingTaskId := None;
              ThreadResponse.p_breakdownDetail := None;
              ThreadResponse.p_answerDetail :=
                Some (changedAnswerDetail answered7 FINISHED (Some "done"));
              ThreadResponse.p_adjustment := None |} tableAnswered).2).
Proof.
  eapply (changeStatus_twice_writes_once tableAnswered _ 7 FINISHED (Some "done")).
  reflexivity.
Defined.

(** The history [getAskingHistory] hands to the AI service is a
    subsequence of what the repository returned for the thread (asked for
    with limit 10): every response in it has a non-empty SQL, and the
    excluded response, when one is given, is not in it.  For thread id 0
    the history is empty and the repository is not asked. *)
Theorem getAskingHistory_filters
    (getResponsesWithThread : Z → Z → list ThreadResponse.t)
    (threadId : Z) (excludeThreadResponseId : option Z) :
  getAskingHistory getResponsesWithThread threadId excludeThreadResponseId
    `sublist_of` getResponsesWithThread threadId 10
  ∧ (∀ response,
       response ∈ getAskingHistory getResponsesWithThread threadId excludeThreadResponseId →
       Adaptor.truthy (ThreadResponse.sql response) = true
       ∧ (truthyZ excludeThreadResponseId = true →
          Some (ThreadResponse.id response) ≠ excludeThreadResponseId))
  ∧ (∀ response,
       threadId ≠ 0 →
       response ∈ getResponsesWithThread threadId 10 →
       Adaptor.truthy (ThreadResponse.sql response) = true →
       Some (ThreadResponse.id response) ≠ excludeThreadResponseId →
       response ∈ getAskingHistory getResponsesWithThread threadId excludeThreadResponseId)
  ∧ getAskingHistory getResponsesWithThread 0 excludeThreadResponseId = [].
Proof.
  unfold getAskingHistory. split_and!.
  - destruct (negb (truthyZ (Some threadId))); [apply sublist_nil_l|].
    destruct (truthyZ excludeThreadResponseId).
    + etrans; apply sublist_filter.
    + apply sublist_filter.
  - intros response. destruct (negb (truthyZ (Some threadId))); [by intros ?%elem_of_nil|].
    destruct (truthyZ excludeThreadResponseId).
    + intros [Hsql [Hne _]%list_elem_of_filter]%list_elem_of_filter.
      split; [by apply Is_true_true | done].
    + intros [Hsql _]%list_elem_of_filter. split; [by apply Is_true_true | done].
  - intros response Hthread Hin Hsql Hne. simpl.
    rewrite bool_decide_eq_false_2 by done. simpl.
    destruct (truthyZ excludeThreadResponseId).
    + apply list_elem_of_filter. split; [by apply Is_true_true|].
      by apply list_elem_of_filter.
    + apply list_elem_of_filter. split; [by apply Is_true_true | done].
  - reflexivity.
Qed.

End AskingServiceMoreProofs.

(** ** The background tracker *)

Module TrackerMoreProofs.

Import Adaptor Tracker AskingServiceMore Scenario TrackerProofs TrackerMore RepoProofs.

(** *** Jobs that reject *)

Lemma entity_inflight (s : State) (n : nat) (job : Job) :
  pending s !! n = Some job → entity job ∈ inflight s.
Proof.
  intros Hjob. unfold inflight. apply list_elem_of_fmap.
  exists job. split; [done|]. by eapply list_elem_of_lookup_2.
Qed.

Lemma not_inflight_filter (i : Z) (s : State) :
  i ∉ inflight s ↔ filter (λ job, entity job = i) (pending s) = [].
Proof.
  unfold inflight. split.
  - intros Hnot. destruct (filter _ (pending s)) as [|job k] eqn:Hf; [done|]. exfalso.
    assert (job ∈ filter (λ job, entity job = i) (pending s))
      as [Hi Hin]%list_elem_of_filter by (rewrite Hf; left).
    apply Hnot. rewrite <- Hi. by apply list_elem_of_fmap_2.
  - intros Hnil [job [-> Hin]]%list_elem_of_fmap.
    eapply filter_nil_not_elem_of; [exact Hnil | | exact Hin]. done.
Qed.

Lemma inflight_replace (s : State) (n : nat) (job job' : Job) :
  pending s !! n = Some job → entity job' = entity job →
  entity <$> <[n := job']> (pending s) = inflight s.
Proof.
  intros Hjob Heq. rewrite list_fmap_insert, Heq. apply list_insert_id.
  unfold inflight. by rewrite list_lookup_fmap, Hjob.
Qed.

(** No event brings an abandoned entity back: it stays abandoned and no
    fetch is issued for it. *)
Lemma step_abandoned (i : Z) (s s' : State) (ev : Event) :
  abandoned i s → step s ev = Some s' →
  abandoned i s' ∧ fetchesFor i s' = fetchesFor i s.
Proof.
  intros [Hmark Hnot]. destruct ev as [|tr|n outcome|n outcome]; simpl.
  - intros [= <-].
    destruct (foldl_startJob_skips i (objectValues (tasks s)) s Hmark) as (Hm & Hp & Hf).
    split; [|exact Hf]. split; [exact Hm|].
    apply not_inflight_filter. unfold tick. rewrite Hp. by apply not_inflight_filter.
  - by intros [= <-].
  - unfold fetchSettled.
    destruct (pending s !! n) as [[tr d|tr d r]|] eqn:Hjob; [|done..].
    assert (Hne : ThreadResponse.id tr ≠ i).
    { intros <-. apply Hnot. by apply (entity_inflight s n (AwaitFetch tr d)). }
    destruct outcome as [result|err]; [case_decide|]; intros [= <-];
      (split; [|done]); unfold abandoned, inflight; simpl.
    + split; [set_solver|]. rewrite list_fmap_delete.
      intros Hin%list_elem_of_delete_inv. by apply Hnot.
    + split; [done|].
      by rewrite (inflight_replace s n (AwaitFetch tr d)).
    + split; [done|]. rewrite list_fmap_delete.
      intros Hin%list_elem_of_delete_inv. by apply Hnot.
  - unfold updateSettled.
    destruct (pending s !! n) as [[tr d|tr d r]|] eqn:Hjob; [done| |done].
    assert (Hne : ThreadResponse.id tr ≠ i).
    { intros <-. apply Hnot. by apply (entity_inflight s n (AwaitUpdate tr d r)). }
    destruct outcome as [[]|err]; [destruct (isFinalized _)|]; intros [= <-];
      (split; [|done]); unfold abandoned, inflight; simpl;
      (split; [set_solver|]); rewrite list_fmap_delete;
      intros Hin%list_elem_of_delete_inv; by apply Hnot.
Qed.

Lemma run_abandoned (i : Z) (evs : list Event) (s s' : State) :
  abandoned i s → run s evs = Some s' →
  abandoned i s' ∧ fetchesFor i s' = fetchesFor i s.
Proof.
  revert s. induction evs as [|ev evs IH]; intros s Hs; simpl.
  - by intros [= <-].
  - destruct (step s ev) as [s1|] eqn:Hstep; [|done]. simpl. intros Hrun.
    destruct (step_abandoned i s s1 ev Hs Hstep) as [Hs1 Hf1].
    destruct (IH s1 Hs1 Hrun) as [Hs' Hf']. split; [done | congruence].
Qed.

(** When the fetch or the write of a job is rejected, the job ends without
    releasing the running mark of its entity.  From then on, whatever
    happens -- ticks, settlements of other jobs, a new registration of the
    same response -- the entity keeps the mark, no job is started for it and
    no fetch is issued for it again. *)
Theorem rejected_poll_is_never_resumed (st : Repo.Store) (before after : list Event)
    (s s1 s2 : State) (n : nat) (job : Job) (err : Error) (ev : Event) :
  run (init st) before = Some s →
  pending s !! n = Some job →
  ev = FetchSettled n (Throw err) ∨ ev = UpdateSettled n (Throw err) →
  step s ev = Some s1 →
  run s1 after = Some s2 →
  entity job ∈ runningJobs s2
  ∧ (entity job ∉ inflight s2)
  ∧ fetchesFor (entity job) s2 = fetchesFor (entity job) s1.
Proof.
  intros Hreach Hjob Hev Hstep Hafter.
  assert (Hg : guarded s) by (eapply run_guarded; [apply guarded_init | exact Hreach]).
  destruct Hg as [Hnd Hmark].
  assert (Hab : abandoned (entity job) s1).
  { assert (Hn : inflight s !! n = Some (entity job))
      by (unfold inflight; by rewrite list_lookup_fmap, Hjob).
    assert (Hs1 : runningJobs s1 = runningJobs s ∧ pending s1 = delete n (pending s)).
    { destruct Hev as [-> | ->]; simpl in Hstep.
      - unfold fetchSettled in Hstep. rewrite Hjob in Hstep.
        destruct job; [by injection Hstep as <- | done].
      - unfold updateSettled in Hstep. rewrite Hjob in Hstep.
        destruct job; [done | by injection Hstep as <-]. }
    destruct Hs1 as [Hr Hp]. split.
    - rewrite Hr. by apply Hmark, (entity_inflight s n).
    - unfold inflight. rewrite Hp, list_fmap_delete. by apply NoDup_delete_lookup. }
  destruct (run_abandoned _ _ _ _ Hab Hafter) as [[? ?] ?]. done.
Qed.

Lemma rejected_poll_is_never_resumed_witness :
  entity (AwaitFetch tracked7 (detail "query-7" AskResultStatus.UNDERSTANDING))
    ∈ runningJobs (tick (addTask tracked7 (tick rejected7)))
  ∧ (entity (AwaitFetch tracked7 (detail "query-7" AskResultStatus.UNDERSTANDING))
       ∉ inflight (tick (addTask tracked7 (tick rejected7))))
  ∧ fetchesFor (entity (AwaitFetch tracked7 (detail "query-7" AskResultStatus.UNDERSTANDING)))
      (tick (addTask tracked7 (tick rejected7)))
    = fetchesFor (entity (AwaitFetch tracked7 (detail "query-7" AskResultStatus.UNDERSTANDING)))
        rejected7.
Proof.
  apply (rejected_poll_is_never_resumed table [AddTask tracked7; Tick]
           [Tick; AddTask tracked7; Tick] polling7 rejected7 _ 0
           (AwaitFetch tracked7 (detail "query-7" AskResultStatus.UNDERSTANDING))
           (mkError "timeout") (FetchSettled 0 (Throw (mkError "timeout")))).
  - reflexivity.
  - by vm_compute.
  - by left.
  - by vm_compute.
  - reflexivity.
Defined.

(** *** What the tracker writes *)

Lemma findOneBy_updateOne (i : Z) (data : ThreadResponse.Partial) (st : Repo.Store)
    (r : ThreadResponse.t) :
  Repo.findOneBy i st = Some r →
  Repo.findOneBy i (Repo.updateOne i data st).2 = Some (ThreadResponse.patch data r).
Proof. intros Hfind. exact (proj1 (updateOne_found i data st r Hfind)). Qed.

Lemma updateOne_breakdown_frame (i : Z) (d : BreakdownDetail.t) (st : Repo.Store) :
  otherColumns <$> Repo.rows (Repo.updateOne i (breakdownPatch d) st).2
  = otherColumns <$> Repo.rows st.
Proof.
  simpl. rewrite <- list_fmap_compose. apply list_fmap_ext.
  intros _ r _. simpl. by destruct (bool_decide (ThreadResponse.id r = i)).
Qed.

Lemma step_store (s s' : State) (ev : Event) :
  step s ev = Some s' →
  store s' = store s
  ∨ ∃ i d, store s' = (Repo.updateOne i (breakdownPatch d) (store s)).2.
Proof.
  destruct ev as [|tr|n outcome|n outcome]; simpl.
  - intros [= <-]. left. apply tick_tasks.
  - intros [= <-]. by left.
  - unfold fetchSettled.
    destruct (pending s !! n) as [[tr d|tr d r]|]; [|done..].
    destruct outcome as [result|err]; [case_decide|]; intros [= <-]; by left.
  - unfold updateSettled.
    destruct (pending s !! n) as [[tr d|tr d r]|]; [done| |done].
    destruct outcome as [[]|err]; [destruct (isFinalized _)|]; intros [= <-];
      [right; eauto | right; eauto | by left].
Qed.

(** Whatever events the tracker goes through, it never adds or removes a
    row and never changes a column other than the breakdown detail: every
    write it adds to the log is an [updateOne] of a breakdown detail. *)
Theorem tracker_writes_only_breakdown_detail (evs : list Event) (s s' : State) :
  run s evs = Some s' →
  otherColumns <$> Repo.rows (store s') = otherColumns <$> Repo.rows (store s)
  ∧ ∃ ws, Repo.writes (store s') = Repo.writes (store s) ++ ws
          ∧ Forall isBreakdownWrite ws.
Proof.
  revert s. induction evs as [|ev evs IH]; intros s; simpl.
  - intros [= <-]. split; [done|]. exists []. by rewrite app_nil_r.
  - destruct (step s ev) as [s1|] eqn:Hstep; [|done]. simpl. intros Hrun.
    destruct (IH s1 Hrun) as (Hrows & ws & Hws & Hall).
    destruct (step_store s s1 ev Hstep) as [Hsame | (i & d & Hupd)].
    + rewrite Hrows, Hws, Hsame. split; [done|]. by exists ws.
    + rewrite Hrows, Hws, Hupd. split; [apply updateOne_breakdown_frame|].
      exists (Repo.Updated i (breakdownPatch d) :: ws). simpl.
      rewrite <- app_assoc. split; [done|]. constructor; [|done]. by exists i, d.
Qed.

Lemma tracker_writes_only_breakdown_detail_witness :
  otherColumns <$> Repo.rows (store finished7) = otherColumns <$> Repo.rows (store finishing7)
  ∧ ∃ ws, Repo.writes (store finished7) = Repo.writes (store finishing7) ++ ws
          ∧ Forall isBreakdownWrite ws.
Proof.
  apply (tracker_writes_only_breakdown_detail [UpdateSettled 0 (Ok tt)] finishing7 finished7).
  by vm_compute.
Defined.

(** A telemetry event is sent in exactly one kind of step: when a job
    whose fetched status is terminal resumes after its write.  That step
    removes the entity from the task map, and the event is flagged a
    success exactly when the status is [FINISHED].  Every other step sends
    nothing and removes nothing. *)
Theorem telemetry_only_on_deregistration (s s' : State) (ev : Event) :
  step s ev = Some s' →
  (∃ n tr d result,
     ev = UpdateSettled n (Ok tt)
     ∧ pending s !! n = Some (AwaitUpdate tr d result)
     ∧ isFinalized (AskDetailResult.status result) = true
     ∧ telemetry s'
       = telemetry s
           ++ [mkSent (ThreadResponse.question tr) (AskDetailResult.error result)
                 (bool_decide (AskDetailResult.status result = AskResultStatus.FINISHED))]
     ∧ tasks s' = delete (ThreadResponse.id tr) (tasks s))
  ∨ (telemetry s' = telemetry s
     ∧ ∀ i, is_Some (tasks s !! i) → is_Some (tasks s' !! i)).
Proof.
  destruct ev as [|tr|n outcome|n outcome]; simpl.
  - intros [= <-]. right. split; [|by rewrite (proj1 (tick_tasks s))].
    unfold tick. generalize (objectValues (tasks s)). intros l. revert s.
    induction l as [|a l IH]; intros s; [done|]. simpl. rewrite IH.
    unfold startJob. case_decide; [done|].
    by destruct (ThreadResponse.breakdownDetail a).
  - intros [= <-]. right. split; [done|]. intros i Hi. simpl.
    destruct (decide (ThreadResponse.id tr = i)) as [<-|Hne].
    + rewrite lookup_insert_eq. eauto.
    + by rewrite lookup_insert_ne.
  - unfold fetchSettled.
    destruct (pending s !! n) as [[tr d|tr d r]|]; [|done..].
    destruct outcome as [result|err]; [case_decide|]; intros [= <-]; by right.
  - unfold updateSettled.
    destruct (pending s !! n) as [[tr d|tr d r]|] eqn:Hjob; [done| |done].
    destruct outcome as [[]|err].
    + destruct (isFinalized (AskDetailResult.status r)) eqn:Hfin; intros [= <-].
      * left. by exists n, tr, d, r.
      * by right.
    + intros [= <-]. by right.
Qed.

Lemma telemetry_only_on_deregistration_witness :
  (∃ n tr d result,
     UpdateSettled 0 (Ok tt) = UpdateSettled n (Ok tt)
     ∧ pending finishing7 !! n = Some (AwaitUpdate tr d result)
     ∧ isFinalized (AskDetailResult.status result) = true
     ∧ telemetry finished7
       = telemetry finishing7
           ++ [mkSent (ThreadResponse.question tr) (AskDetailResult.error result)
                 (bool_decide (AskDetailResult.status result = AskResultStatus.FINISHED))]
     ∧ tasks finished7 = delete (ThreadResponse.id tr) (tasks finishing7))
  ∨ (telemetry finished7 = telemetry finishing7
     ∧ ∀ i, is_Some (tasks finishing7 !! i) → is_Some (tasks finished7 !! i)).
Proof.
  apply (telemetry_only_on_deregistration finishing7 finished7 (UpdateSettled 0 (Ok tt))).
  by vm_compute.
Defined.

(** The write of a poll is made from what the job captured when it
    started.  When it is done, the row's breakdown detail is the fetched
    result under the job's own query id, whatever detail the row held by
    then; and if the fetched status is terminal, the entry of that id is
    removed from the task map, whatever response is registered under it.
    So a breakdown submitted again while a poll of the same response is in
    flight is overwritten in the table and dropped from the tracker. *)
Theorem poll_overwrites_resubmission (s s' : State) (n : nat) (tr row : ThreadResponse.t)
    (d : BreakdownDetail.t) (result : AskDetailResult.t) :
  pending s !! n = Some (AwaitUpdate tr d result) →
  Repo.findOneBy (ThreadResponse.id tr) (store s) = Some row →
  step s (UpdateSettled n (Ok tt)) = Some s' →
  (Repo.findOneBy (ThreadResponse.id tr) (store s') ≫= ThreadResponse.breakdownDetail)
  = Some {| BreakdownDetail.queryId := BreakdownDetail.queryId d;
            BreakdownDetail.status := AskDetailResult.status result;
            BreakdownDetail.error := AskDetailResult.error result;
            BreakdownDetail.description :=
              AskDetailResult.description (AskDetailResult.response result);
            BreakdownDetail.steps :=
              Some (AskDetailResult.steps (AskDetailResult.response result)) |}
  ∧ (isFinalized (AskDetailResult.status result) = true →
     tasks s' !! ThreadResponse.id tr = None).
Proof.
  intros Hjob Hrow. unfold step, updateSettled. rewrite Hjob. cbv zeta.
  pose proof (findOneBy_updateOne (ThreadResponse.id tr)
                (breakdownPatch (updatedBreakdownDetail d result)) (store s) row Hrow)
    as Hfound.
  destruct (isFinalized (AskDetailResult.status result)); intros [= <-];
    cbn [store tasks]; unfold Repo.updateOne in Hfound; cbn [snd] in Hfound;
    rewrite Hfound.
  - split; [done|]. intros _. apply lookup_delete_eq.
  - split; done.
Qed.

Lemma poll_overwrites_resubmission_witness :
  (Repo.findOneBy (ThreadResponse.id tracked7) (store finished7)
     ≫= ThreadResponse.breakdownDetail)
  = Some {| BreakdownDetail.queryId :=
              BreakdownDetail.queryId (detail "query-7" AskResultStatus.UNDERSTANDING);
            BreakdownDetail.status :=
              AskDetailResult.status (fetched AskResultStatus.FINISHED);
            BreakdownDetail.error := AskDetailResult.error (fetched AskResultStatus.FINISHED);
            BreakdownDetail.description :=
              AskDetailResult.description
                (AskDetailResult.response (fetched AskResultStatus.FINISHED));
            BreakdownDetail.steps :=
              Some (AskDetailResult.steps
                      (AskDetailResult.response (fetched AskResultStatus.FINISHED))) |}
  ∧ (isFinalized (AskDetailResult.status (fetched AskResultStatus.FINISHED)) = true →
     tasks finished7 !! ThreadResponse.id tracked7 = None).
Proof.
  apply (poll_overwrites_resubmission finishing7 finished7 0 tracked7 tracked7
           (detail "query-7" AskResultStatus.UNDERSTANDING)
           (fetched AskResultStatus.FINISHED)); by vm_compute.
Defined.

(** *** Registration by the service *)

Lemma foldl_addTask_frame (l : list ThreadResponse.t) (s : State) :
  let s' := foldl (λ s threadResponse, addTask threadResponse s) s l in
  runningJobs s' = runningJobs s ∧ pending s' = pending s ∧ store s' = store s
  ∧ fetches s' = fetches s ∧ telemetry s' = telemetry s ∧ rejections s' = rejections s.
Proof.
  revert s. induction l as [|a l IH]; intros s; [done|]. simpl.
  destruct (IH (addTask a s)) as (-> & -> & -> & -> & -> & ->). done.
Qed.

Lemma foldl_addTask_lookup_inv (l : list ThreadResponse.t) (s : State) (i : Z)
    (r : ThreadResponse.t) :
  tasks (foldl (λ s threadResponse, addTask threadResponse s) s l) !! i = Some r →
  tasks s !! i = Some r ∨ (r ∈ l ∧ ThreadResponse.id r = i).
Proof.
  revert s. induction l as [|a l IH]; intros s; simpl; [by left|].
  intros [Hin | [Hin Hid]]%IH.
  - simpl in Hin. destruct (decide (ThreadResponse.id a = i)) as [Ha|Ha].
    + rewrite <- Ha, lookup_insert_eq in Hin. injection Hin as <-.
      right. split; [left | done].
    + rewrite lookup_insert_ne in Hin by done. by left.
  - right. split; [by right | done].
Qed.

Lemma foldl_addTask_keeps (l : list ThreadResponse.t) (s : State) (i : Z)
    (x : ThreadResponse.t) :
  tasks s !! i = Some x →
  ∃ r, tasks (foldl (λ s threadResponse, addTask threadResponse s) s l) !! i = Some r
       ∧ (r = x ∨ (r ∈ l ∧ ThreadResponse.id r = i)).
Proof.
  revert s x. induction l as [|a l IH]; intros s x Hx; simpl; [by eauto|].
  destruct (decide (ThreadResponse.id a = i)) as [Ha|Ha].
  - destruct (IH (addTask a s) a) as (r & Hr & Hcase).
    { simpl. by rewrite <- Ha, lookup_insert_eq. }
    exists r. split; [done|]. right.
    destruct Hcase as [-> | [Hin Hid]]; (split; [|done]); [left | by right].
  - destruct (IH (addTask a s) x) as (r & Hr & Hcase).
    { simpl. by rewrite lookup_insert_ne. }
    exists r. split; [done|].
    destruct Hcase as [-> | [Hin Hid]]; [by left|]. right. split; [by right | done].
Qed.

Lemma foldl_addTask_registered (l : list ThreadResponse.t) (s : State)
    (r : ThreadResponse.t) :
  r ∈ l →
  ∃ r', tasks (foldl (λ s threadResponse, addTask threadResponse s) s l)
          !! ThreadResponse.id r = Some r'
        ∧ r' ∈ l ∧ ThreadResponse.id r' = ThreadResponse.id r.
Proof.
  revert s. induction l as [|a l IH]; intros s; [by intros ?%elem_of_nil|].
  intros [-> | Hin]%elem_of_cons; simpl.
  - destruct (foldl_addTask_keeps l (addTask a s) (ThreadResponse.id a) a)
      as (r' & Hr' & Hcase).
    { simpl. by rewrite lookup_insert_eq. }
    exists r'. split; [done|].
    destruct Hcase as [-> | [Hin Hid]]; (split; [|done]); [left | by right].
  - destruct (IH (addTask a s) Hin) as (r' & Hr' & Hin' & Hid).
    exists r'. split; [done|]. split; [by right | done].
Qed.

(** [initialize] registers the unfinished breakdowns of the table and
    nothing else: every row whose breakdown status is set and not finalized
    has its id registered, with a row of that kind; every response that is
    registered afterwards either was registered before or is such a row,
    registered under its id.  It starts no poll and writes nothing. *)
Theorem initialize_registers_unfinished (s : State) :
  (runningJobs (initialize s) = runningJobs s
   ∧ pending (initialize s) = pending s
   ∧ store (initialize s) = store s
   ∧ fetches (initialize s) = fetches s)
  ∧ (∀ r, r ∈ Repo.rows (store s) → unfinishedBreakdown r = true →
          ∃ r', tasks (initialize s) !! ThreadResponse.id r = Some r'
                ∧ r' ∈ Repo.rows (store s)
                ∧ ThreadResponse.id r' = ThreadResponse.id r
                ∧ unfinishedBreakdown r' = true)
  ∧ (∀ i r, tasks (initialize s) !! i = Some r →
            tasks s !! i = Some r
            ∨ (r ∈ Repo.rows (store s) ∧ ThreadResponse.id r = i
               ∧ unfinishedBreakdown r = true)).
Proof.
  unfold initialize. split; [|split].
  - by destruct (foldl_addTask_frame
                   (filter (λ r, unfinishedBreakdown r) (Repo.rows (store s))) s)
      as (? & ? & ? & ? & _).
  - intros r Hin Hun.
    destruct (foldl_addTask_registered
                (filter (λ r, unfinishedBreakdown r) (Repo.rows (store s))) s r)
      as (r' & Hr' & [Hun' Hin']%list_elem_of_filter & Hid).
    { apply list_elem_of_filter. split; [by apply Is_true_true | done]. }
    exists r'. split_and!; [done | done | done | by apply Is_true_true].
  - intros i r [Hold | [[Hun Hin]%list_elem_of_filter Hid]]%foldl_addTask_lookup_inv.
    + by left.
    + right. split_and!; [done | done | by apply Is_true_true].
Qed.

Lemma unfinished_has_detail (r : ThreadResponse.t) :
  unfinishedBreakdown r = true →
  ∃ d, ThreadResponse.breakdownDetail r = Some d
       ∧ isFinalized (BreakdownDetail.status d) = false.
Proof.
  unfold unfinishedBreakdown. destruct (ThreadResponse.breakdownDetail r) as [d|]; [|done].
  intros [_ Hfin]%andb_true_iff. exists d. split; [done|]. by apply negb_true_iff.
Qed.

(** The responses the service registers are well tracked, and the tracker
    keeps them so: starting from a tracker in which every registered
    response sits under its own id with a breakdown status that is set and
    not finalized (the new tracker is one), [initialize],
    [generateThreadResponseBreakdown] -- whatever its outcome -- and every
    event of the tracker itself lead to such a tracker again. *)
Theorem service_keeps_tracker_well_tracked (st : Repo.Store) (s : State) :
  wellTracked (init st)
  ∧ (wellTracked s →
     wellTracked (initialize s)
     ∧ (∀ generateAskDetail threadResponseId language,
          wellTracked
            (generateThreadResponseBreakdown generateAskDetail threadResponseId language s).1.2)
     ∧ (∀ ev s', ownEvent ev → step s ev = Some s' → wellTracked s')).
Proof.
  split; [by intros i r ?|]. intros Hs. split_and!.
  - intros i r Hr. unfold initialize in Hr.
    apply foldl_addTask_lookup_inv in Hr
      as [Hold | [[Hun _]%list_elem_of_filter Hid]]; [by apply Hs|].
    split; [done | by apply Is_true_true].
  - intros remote threadResponseId language. unfold generateThreadResponseBreakdown.
    destruct (Repo.findOneBy threadResponseId (store s)) as [tr|] eqn:Hfind; [|done].
    destruct (remote _) as [queryId|err]; [|done].
    assert (Hfind' : Repo.findOneBy (ThreadResponse.id tr) (store s) = Some tr)
      by (by rewrite (findOneBy_id _ _ _ Hfind)).
    pose proof (updateOne_found _ (breakdownPatch (submittedDetail queryId)) _ _ Hfind')
      as [Hret _].
    destruct (Repo.updateOne _ _ _) as [updated st'].
    simpl in Hret. subst updated. simpl.
    intros i r. unfold addTask, withStore. cbn [tasks ThreadResponse.patch ThreadResponse.id].
    destruct (decide (ThreadResponse.id tr = i)) as [<-|Hne].
    + rewrite lookup_insert_eq. by intros [= <-].
    + rewrite lookup_insert_ne by done. apply Hs.
  - intros ev s' Hown Hstep i r Hr.
    destruct ev as [|tr|n outcome|n outcome]; simpl in Hstep; [| done | |].
    + injection Hstep as <-. rewrite (proj1 (tick_tasks s)) in Hr. by apply Hs.
    + unfold fetchSettled in Hstep.
      destruct (pending s !! n) as [[tr d|tr d r0]|]; [|done..].
      destruct outcome as [result|err]; [case_decide|]; injection Hstep as <-;
        by apply Hs.
    + unfold updateSettled in Hstep.
      destruct (pending s !! n) as [[tr d|tr d r0]|]; [done| |done].
      destruct outcome as [[]|err]; [destruct (isFinalized _)|]; injection Hstep as <-;
        simpl in Hr; try by apply Hs.
      apply lookup_delete_Some in Hr as [_ Hr]. by apply Hs.
Qed.

(** *** What a tick starts *)

Lemma startJob_other (i : Z) (s : State) (a : ThreadResponse.t) :
  ThreadResponse.id a ≠ i →
  fetchesFor i (startJob s a) = fetchesFor i s
  ∧ (i ∈ runningJobs (startJob s a) → i ∈ runningJobs s).
Proof.
  intros Hne. unfold startJob, fetchesFor. case_decide; [done|].
  destruct (ThreadResponse.breakdownDetail a) as [d|]; simpl.
  - rewrite filter_app, filter_cons, filter_nil. simpl.
    rewrite decide_False by done. rewrite app_nil_r. split; [done|].
    intros [?%elem_of_singleton | ?]%elem_of_union; [congruence | done].
  - split; [done|].
    intros [?%elem_of_singleton | ?]%elem_of_union; [congruence | done].
Qed.

Lemma startJob_idle (i : Z) (s : State) (a : ThreadResponse.t) (d : BreakdownDetail.t) :
  ThreadResponse.id a = i → i ∉ runningJobs s →
  ThreadResponse.breakdownDetail a = Some d →
  fetchesFor i (startJob s a) = fetchesFor i s ++ [(i, BreakdownDetail.queryId d)]
  ∧ i ∈ runningJobs (startJob s a).
Proof.
  intros <- Hidle Hd. unfold startJob, fetchesFor.
  rewrite decide_False by done. rewrite Hd. simpl.
  rewrite filter_app, filter_cons, filter_nil. simpl.
  rewrite decide_True by done. split; [done | set_solver].
Qed.

Lemma foldl_startJob_idle (i : Z) (r : ThreadResponse.t) (d : BreakdownDetail.t)
    (l : list ThreadResponse.t) (s : State) :
  NoDup (ThreadResponse.id <$> l) → r ∈ l →
  ThreadResponse.id r = i → ThreadResponse.breakdownDetail r = Some d →
  i ∉ runningJobs s →
  fetchesFor i (foldl startJob s l) = fetchesFor i s ++ [(i, BreakdownDetail.queryId d)]
  ∧ i ∈ runningJobs (foldl startJob s l).
Proof.
  revert s. induction l as [|a l IH]; intros s Hnd Hin Hid Hd Hidle;
    [by apply elem_of_nil in Hin|].
  rewrite fmap_cons in Hnd. apply NoDup_cons in Hnd as [Ha Hnd].
  apply elem_of_cons in Hin as [<- | Hin]; simpl.
  - destruct (startJob_idle i s r d Hid Hidle Hd) as [Hf Hm].
    destruct (foldl_startJob_skips i l (startJob s r) Hm) as (Hm' & _ & Hf').
    split; [congruence | done].
  - assert (Hne : ThreadResponse.id a ≠ i).
    { intros Heq. apply Ha. rewrite Heq, <- Hid. by apply list_elem_of_fmap_2. }
    destruct (startJob_other i s a Hne) as [Hf Hm].
    destruct (IH (startJob s a) Hnd Hin Hid Hd) as [Hf' Hm']; [by intros ?%Hm|].
    split; [congruence | done].
Qed.

Lemma foldl_startJob_no_rejection (l : list ThreadResponse.t) (s : State) :
  Forall (λ a, unfinishedBreakdown a = true) l →
  rejections (foldl startJob s l) = rejections s.
Proof.
  revert s. induction l as [|a l IH]; intros s Hall; [done|].
  apply Forall_cons in Hall as [Ha Hall]. simpl. rewrite IH by done.
  destruct (unfinished_has_detail a Ha) as (d & Hd & _).
  unfold startJob. case_decide; [done|]. by rewrite Hd.
Qed.

Lemma elem_of_objectValues (m : gmap Z ThreadResponse.t) (r : ThreadResponse.t) :
  r ∈ objectValues m ↔ ∃ i, m !! i = Some r.
Proof.
  unfold objectValues. rewrite merge_sort_Permutation, list_elem_of_fmap. split.
  - intros [[i r'] [-> Hin]]. exists i. by apply elem_of_map_to_list.
  - intros [i Hi]. exists (i, r). split; [done|]. by apply elem_of_map_to_list.
Qed.

Lemma objectValues_ids (s : State) :
  wellTracked s → NoDup (ThreadResponse.id <$> objectValues (tasks s)).
Proof.
  intros Hs. unfold objectValues. rewrite merge_sort_Permutation.
  assert (Hkeys : ThreadResponse.id <$> (map_to_list (tasks s)).*2
                  = (map_to_list (tasks s)).*1).
  { rewrite <- list_fmap_compose. apply list_fmap_ext.
    intros _ [i r] Hin%list_elem_of_lookup_2%elem_of_map_to_list. simpl.
    by apply Hs. }
  rewrite Hkeys. apply NoDup_fst_map_to_list.
Qed.

(** A tick polls every registered response that is not being polled,
    once: in a well-tracked tracker, for a registered entity without the
    running mark, the tick issues exactly one fetch, with the query id of
    the registered detail, and marks the entity; and no job of the tick is
    rejected. *)
Theorem tick_polls_each_idle_entity_once (s : State) (i : Z) (r : ThreadResponse.t)
    (d : BreakdownDetail.t) :
  wellTracked s →
  tasks s !! i = Some r →
  ThreadResponse.breakdownDetail r = Some d →
  i ∉ runningJobs s →
  fetchesFor i (tick s) = fetchesFor i s ++ [(i, BreakdownDetail.queryId d)]
  ∧ i ∈ runningJobs (tick s)
  ∧ rejections (tick s) = rejections s.
Proof.
  intros Hs Hr Hd Hidle. unfold tick.
  destruct (foldl_startJob_idle i r d (objectValues (tasks s)) s) as [Hf Hm];
    [by apply objectValues_ids | apply elem_of_objectValues; eauto
     | by apply (Hs i r) | done | done |].
  split_and!; [done | done |].
  apply foldl_startJob_no_rejection, Forall_forall.
  intros a [j Hj]%elem_of_objectValues. by apply (Hs j a).
Qed.

Lemma tick_polls_each_idle_entity_once_witness :
  fetchesFor 7 (tick (addTask tracked7 (init table)))
  = fetchesFor 7 (addTask tracked7 (init table))
      ++ [(7, BreakdownDetail.queryId (detail "query-7" AskResultStatus.UNDERSTANDING))]
  ∧ 7 ∈ runningJobs (tick (addTask tracked7 (init table)))
  ∧ rejections (tick (addTask tracked7 (init table)))
    = rejections (addTask tracked7 (init table)).
Proof.
  apply (tick_polls_each_idle_entity_once (addTask tracked7 (init table)) 7 tracked7
           (detail "query-7" AskResultStatus.UNDERSTANDING)).
  - intros i r. simpl. destruct (decide (7 = i)) as [<-|Hne].
    + rewrite lookup_insert_eq. by intros [= <-].
    + rewrite lookup_insert_ne by done. by rewrite lookup_empty.
  - by vm_compute.
  - reflexivity.
  - simpl. apply not_elem_of_empty.
Defined.

(** *** Submitting a breakdown *)

(** [generateThreadResponseBreakdown].  If the response is not in the
    table it throws [Thread response <id> not found] before any request is
    sent.  If the AI service refuses the request, the error is thrown on and
    neither the table nor the tracker has changed.  Otherwise one request
    was sent, with the question and SQL of the response; the breakdown
    detail of the row is replaced as a whole by the new query id with status
    [UNDERSTANDING] -- error, description and steps of an earlier breakdown
    are gone --, the other columns are as before, and the row returned is
    the row now in the table and the one registered in the tracker. *)
Theorem generateThreadResponseBreakdown_outcomes
    (generateAskDetail : AskDetailInput → result string)
    (threadResponseId : Z) (language : string) (s : State) :
  (Repo.findOneBy threadResponseId (store s) = None →
   generateThreadResponseBreakdown generateAskDetail threadResponseId language s
   = (Throw (mkError ("Thread response " +:+ showZ threadResponseId +:+ " not found")),
      s, []))
  ∧ (∀ row, Repo.findOneBy threadResponseId (store s) = Some row →
       let input :=
         mkAskDetailInput (ThreadResponse.question row) (ThreadResponse.sql row) language in
       (∀ err, generateAskDetail input = Throw err →
          generateThreadResponseBreakdown generateAskDetail threadResponseId language s
          = (Throw err, s, [input]))
       ∧ (∀ queryId, generateAskDetail input = Ok queryId →
            ∃ updated s',
              generateThreadResponseBreakdown generateAskDetail threadResponseId language s
              = (Ok updated, s', [input])
              ∧ ThreadResponse.breakdownDetail updated = Some (submittedDetail queryId)
              ∧ otherColumns updated = otherColumns row
              ∧ Repo.findOneBy threadResponseId (store s') = Some updated
              ∧ tasks s' = <[threadResponseId := updated]> (tasks s)
              ∧ Repo.writes (store s')
                = Repo.writes (store s)
                    ++ [Repo.Updated threadResponseId
                          (breakdownPatch (submittedDetail queryId))]
              ∧ pending s' = pending s ∧ runningJobs s' = runningJobs s)).
Proof.
  split.
  - intros Hnone. unfold generateThreadResponseBreakdown. by rewrite Hnone.
  - intros row Hfind input. unfold generateThreadResponseBreakdown. rewrite Hfind.
    fold input. split.
    + intros err Herr. by rewrite Herr.
    + intros queryId Hok. rewrite Hok.
      pose proof (findOneBy_id _ _ _ Hfind) as Hid. rewrite Hid.
      pose proof (findOneBy_updateOne threadResponseId
                    (breakdownPatch (submittedDetail queryId)) (store s) row Hfind)
        as Hfound.
      unfold Repo.updateOne in *. cbn [snd] in Hfound. cbv zeta. rewrite Hfound.
      eexists _, _. split; [reflexivity|].
      unfold addTask, withStore. cbn [tasks store pending runningJobs ThreadResponse.patch
                                      ThreadResponse.id ThreadResponse.breakdownDetail].
      rewrite Hid. split_and!; done.
Qed.

Lemma generateThreadResponseBreakdown_outcomes_witness :
  ∃ updated s',
    generateThreadResponseBreakdown acceptsAll 7 "English" (init tableBrokenDown)
    = (Ok updated, s',
       [mkAskDetailInput (ThreadResponse.question brokenDown7)
          (ThreadResponse.sql brokenDown7) "English"])
    ∧ ThreadResponse.breakdownDetail updated = Some (submittedDetail "query-8")
    ∧ otherColumns updated = otherColumns brokenDown7
    ∧ Repo.findOneBy 7 (store s') = Some updated
    ∧ tasks s' = <[7 := updated]> (tasks (init tableBrokenDown))
    ∧ Repo.writes (store s')
      = Repo.writes (store (init tableBrokenDown))
          ++ [Repo.Updated 7 (breakdownPatch (submittedDetail "query-8"))]
    ∧ pending s' = pending (init tableBrokenDown)
    ∧ runningJobs s' = runningJobs (init tableBrokenDown).
Proof.
  apply (proj2 (proj2 (generateThreadResponseBreakdown_outcomes
                         acceptsAll 7 "English" (init tableBrokenDown))
                  brokenDown7 eq_refl) "query-8").
  reflexivity.
Defined.

End TrackerMoreProofs.

(** ** Data preview of a breakdown *)

Module PreviewProofs.

Import Cte AskingServiceMore Scenario TrackerMore.

Section Preview.

Variables Project Manifest Rows : Type.
Variable getCurrentProject : result Project.
Variable getLastDeploymentManifest : Project → result Manifest.
Variable format : string → result string.
Variable preview : string → Project → Manifest → option Z → result Rows.

(** [previewBreakdownData] executes a query only after everything else has
    succeeded, and then exactly one: the formatted text of
    [constructCteSql] on the steps of the response, for a cutoff that is
    omitted or valid.  The query executed is followed by exactly one
    telemetry event, a success if rows came back, a failure carrying the
    error's message if the query was rejected, in which case the error is
    thrown on.  In every other case the call throws and has neither executed
    a query nor sent an event; in particular for a cutoff that is negative
    or not below the number of steps, which throws
    [Invalid stepIndex: <cutoff>]. *)
Theorem previewBreakdownData_effects (responseId : Z) (stepIndex limit : option Z)
    (st : Repo.Store) :
  ((∃ err, previewBreakdownData Project Manifest Rows getCurrentProject
                getLastDeploymentManifest format preview responseId stepIndex limit st = (Throw err, []))
   ∨ (∃ response steps text sql project mdl,
        Repo.findOneBy responseId st = Some response
        ∧ ThreadResponse.breakdownDetail response ≫= BreakdownDetail.steps = Some steps
        ∧ validCutoff steps stepIndex
        ∧ constructCteSql steps stepIndex = Ok text
        ∧ format text = Ok sql
        ∧ getCurrentProject = Ok project
        ∧ getLastDeploymentManifest project = Ok mdl
        ∧ ((∃ data,
              preview sql project mdl limit = Ok data
              ∧ previewBreakdownData Project Manifest Rows getCurrentProject
                getLastDeploymentManifest format preview responseId stepIndex limit st
                = (Ok data, [Previewed sql limit; SentPreviewEvent sql None true]))
           ∨ (∃ err,
                preview sql project mdl limit = Throw err
                ∧ previewBreakdownData Project Manifest Rows getCurrentProject
                getLastDeploymentManifest format preview responseId stepIndex limit st
                  = (Throw err,
                     [Previewed sql limit;
                      SentPreviewEvent sql (Some (Js.message err)) false])))))
  ∧ (∀ response steps i project mdl,
       Repo.findOneBy responseId st = Some response →
       ThreadResponse.breakdownDetail response ≫= BreakdownDetail.steps = Some steps →
       getCurrentProject = Ok project →
       getLastDeploymentManifest project = Ok mdl →
       i < 0 ∨ Z.of_nat (length steps) ≤ i →
       previewBreakdownData Project Manifest Rows getCurrentProject
                getLastDeploymentManifest format preview responseId (Some i) limit st
       = (Throw (mkError ("Invalid stepIndex: " +:+ showZ i)), [])).
Proof.
  split.
  - unfold previewBreakdownData.
    destruct (Repo.findOneBy responseId st) as [response|] eqn:Hfind; [|left; eauto].
    destruct getCurrentProject as [project|err] eqn:Hproject; [|left; eauto].
    destruct (getLastDeploymentManifest project) as [mdl|err] eqn:Hmdl; [|left; eauto].
    destruct (ThreadResponse.breakdownDetail response ≫= BreakdownDetail.steps)
      as [steps|] eqn:Hsteps.
    2:{ left. destruct stepIndex as [i|]; simpl constructCteSqlOf;
          [destruct (decide (i < 0))|]; eauto. }
    simpl constructCteSqlOf.
    destruct (constructCteSql steps stepIndex) as [text|err] eqn:Htext; [|left; eauto].
    simpl. destruct (format text) as [sql|err] eqn:Hsql; [|left; eauto].
    right. exists response, steps, text, sql, project, mdl.
    split_and!; [done | done | by eapply CteMore.constructCteSql_Ok_valid | done..|].
    destruct (preview sql project mdl limit) as [data|err]; [left | right]; eauto.
  - intros response steps i project mdl Hfind Hsteps Hproject Hmdl Hbad.
    unfold previewBreakdownData. rewrite Hfind, Hproject, Hmdl, Hsteps.
    simpl constructCteSqlOf. unfold constructCteSql.
    rewrite decide_True by lia. reflexivity.
Qed.

End Preview.

Lemma previewBreakdownData_effects_witness :
  previewBreakdownData unit unit (list string) (Ok tt) (λ _, Ok tt) Ok (λ _ _ _ _, Ok [])
    7 (Some 3) None tableBrokenDown
  = (Throw (mkError ("Invalid stepIndex: " +:+ showZ 3)), []).
Proof.
  apply (proj2 (previewBreakdownData_effects unit unit (list string) (Ok tt) (λ _, Ok tt) Ok
                  (λ _ _ _ _, Ok []) 7 (Some 3) None tableBrokenDown)
           brokenDown7 [stepA; stepB; stepC] 3 tt tt); try reflexivity.
  right. simpl. lia.
Defined.

End PreviewProofs.

(** ** The adaptor *)

Module AdaptorMoreProofs.

Import Adaptor AdaptorMore Scenario TrackerMore DeployProofs.

(** *** Waiting for a deployment *)

(** While the answers are [INDEXING] the loop goes on with the wait times
    that are left. *)
Lemma waitLoop_app (remote : Remote) (deployId : string) (pre rest : list Z) :
  ∀ (deploySuccess : bool) (w : Trace),
    (∀ k, (length (requests w) ≤ k < length (requests w) + length pre)%nat →
          getDeployStatus (statusReply remote k) = Ok RubixSystemStatus.INDEXING) →
    waitLoop remote deployId (pre ++ rest) deploySuccess w
    = waitLoop remote deployId rest deploySuccess
        (mkTrace (requests w ++ replicate (length pre) deployId)
           (timers w ++ (millis <$> pre))).
Proof.
  induction pre as [|waitTime pre IH]; intros deploySuccess w Hidx; simpl.
  - rewrite !app_nil_r. by destruct w.
  - rewrite Hidx by (simpl; lia).
    rewrite decide_False by discriminate. rewrite decide_False by discriminate.
    rewrite decide_True by reflexivity.
    rewrite IH; simpl.
    + rewrite <- !app_assoc. reflexivity.
    + intros k Hk. apply Hidx. rewrite length_app in Hk. simpl in *. lia.
Qed.

Lemma waitDeployFinished_first_answer (remote : Remote) (deployId : string) (k : nat) :
  (k < 7)%nat →
  (∀ j, (j < k)%nat →
        getDeployStatus (statusReply remote j) = Ok RubixSystemStatus.INDEXING) →
  getDeployStatus (statusReply remote k) ≠ Ok RubixSystemStatus.INDEXING →
  waitDeployFinished remote deployId noTrace
  = (verdict (getDeployStatus (statusReply remote k)),
     mkTrace (replicate (S k) deployId) (take k backoff)).
Proof.
  intros Hk Hbefore Hthen. unfold waitDeployFinished.
  rewrite <- (take_drop k waitTimes).
  assert (Hlen : length (take k waitTimes) = k).
  { rewrite length_take. change (length waitTimes) with 7%nat. lia. }
  rewrite waitLoop_app.
  2:{ intros j Hj. apply Hbefore. simpl in Hj. lia. }
  rewrite Hlen. simpl requests. simpl timers.
  destruct (drop k waitTimes) as [|waitTime later] eqn:Hdrop.
  { apply (f_equal length) in Hdrop. rewrite length_drop in Hdrop.
    change (length waitTimes) with 7%nat in Hdrop. simpl in Hdrop. lia. }
  simpl. rewrite length_replicate.
  change backoff with (millis <$> waitTimes). rewrite fmap_take.
  replace (replicate k deployId ++ [deployId]) with (replicate (S k) deployId)
    by (by rewrite replicate_S_end).
  destruct (getDeployStatus (statusReply remote k)) as [status|err]; [|done].
  simpl. repeat case_decide; try done. by subst.
Qed.

Lemma first_other_answer (remote : Remote) (n : nat) :
  (∀ j, (j < n)%nat →
        getDeployStatus (statusReply remote j) = Ok RubixSystemStatus.INDEXING)
  ∨ ∃ k, (k < n)%nat
         ∧ getDeployStatus (statusReply remote k) ≠ Ok RubixSystemStatus.INDEXING
         ∧ ∀ j, (j < k)%nat →
                getDeployStatus (statusReply remote j) = Ok RubixSystemStatus.INDEXING.
Proof.
  induction n as [|n [Hall | (k & Hk & Hne & Hbefore)]].
  - left. intros j Hj. lia.
  - destruct (getDeployStatus (statusReply remote n)) as [status|err] eqn:Hn.
    + destruct (decide (status = RubixSystemStatus.INDEXING)) as [->|Hne].
      * left. intros j Hj. destruct (decide (j = n)) as [->|?]; [done|]. apply Hall. lia.
      * right. exists n. split; [lia|]. rewrite Hn. split; [congruence|]. done.
    + right. exists n. split; [lia|]. rewrite Hn. split; [done|]. done.
  - right. exists k. split; [lia | done].
Qed.

(** The first answer that is not [INDEXING] decides a deployment.  If the
    deployment was accepted, the first [k] status requests ([k < 7]) are
    answered [INDEXING] and the next one is not, then [deploy] stops there,
    after [k + 1] requests and the [k] timers of 1 s, .., [k] s: with
    [SUCCESS] if the answer is [FINISHED]; with [FAILED] and the message
    [Rubix Error: deployment hash:<hash>, <message>] if the request was
    rejected or the body carried an error; with [FAILED] and the message
    [.. failed or timeout ..] for [FAILED] and for every other status. *)
Theorem deploy_first_answer_decides (remote : Remote) (deployData : DeployData)
    (deployId : string) (k : nat) :
  postReply remote = Ok deployId →
  (k < 7)%nat →
  (∀ j, (j < k)%nat →
        getDeployStatus (statusReply remote j) = Ok RubixSystemStatus.INDEXING) →
  getDeployStatus (statusReply remote k) ≠ Ok RubixSystemStatus.INDEXING →
  deploy remote deployData noTrace
  = (Ok match getDeployStatus (statusReply remote k) with
        | Throw err =>
            {| status := RubixDeployStatusEnum.FAILED;
               error := Some ("Rubix Error: deployment hash:" +:+ hash deployData
                                +:+ ", " +:+ Js.message err) |}
        | Ok answer =>
            if decide (answer = RubixSystemStatus.FINISHED)
            then {| status := RubixDeployStatusEnum.SUCCESS; error := None |}
            else {| status := RubixDeployStatusEnum.FAILED;
                    error := Some ("Rubix: Deploy Rubix failed or timeout, hash: "
                                     +:+ hash deployData) |}
        end,
     mkTrace (replicate (S k) deployId) (take k backoff)).
Proof.
  intros Hpost Hk Hbefore Hthen. unfold deploy. rewrite Hpost.
  rewrite (waitDeployFinished_first_answer remote deployId k Hk Hbefore Hthen).
  destruct (getDeployStatus (statusReply remote k)) as [answer|err]; [|done].
  simpl. by repeat case_decide.
Qed.

Lemma deploy_first_answer_decides_witness :
  deploy failsAtSecond (mkDeployData "{}" "abc123") noTrace
  = (Ok match getDeployStatus (statusReply failsAtSecond 1) with
        | Throw err =>
            {| status := RubixDeployStatusEnum.FAILED;
               error := Some ("Rubix Error: deployment hash:"
                                +:+ hash (mkDeployData "{}" "abc123")
                                +:+ ", " +:+ Js.message err) |}
        | Ok answer =>
            if decide (answer = RubixSystemStatus.FINISHED)
            then {| status := RubixDeployStatusEnum.SUCCESS; error := None |}
            else {| status := RubixDeployStatusEnum.FAILED;
                    error := Some ("Rubix: Deploy Rubix failed or timeout, hash: "
                                     +:+ hash (mkDeployData "{}" "abc123")) |}
        end,
     mkTrace (replicate 2 "deploy-1") (take 1 backoff)).
Proof.
  apply (deploy_first_answer_decides failsAtSecond (mkDeployData "{}" "abc123")
           "deploy-1" 1).
  - reflexivity.
  - lia.
  - intros j Hj. assert (j = 0%nat) as -> by lia. reflexivity.
  - discriminate.
Defined.

(** [deploy] reports [SUCCESS] exactly when the deployment was accepted and
    one of the 7 status requests is answered [FINISHED] after nothing but
    [INDEXING] answers. *)
Theorem deploy_succeeds_iff_finished_in_time (remote : Remote) (deployData : DeployData) :
  (deploy remote deployData noTrace).1
  = Ok {| status := RubixDeployStatusEnum.SUCCESS; error := None |}
  ↔ (∃ deployId, postReply remote = Ok deployId)
    ∧ ∃ k, (k < 7)%nat
           ∧ getDeployStatus (statusReply remote k) = Ok RubixSystemStatus.FINISHED
           ∧ ∀ j, (j < k)%nat →
                  getDeployStatus (statusReply remote j) = Ok RubixSystemStatus.INDEXING.
Proof.
  split.
  - unfold deploy. destruct (postReply remote) as [deployId|err] eqn:Hpost; [|done].
    intros Hsuccess. split; [by eauto|].
    destruct (first_other_answer remote 7) as [Hall | (k & Hk & Hne & Hbefore)].
    + unfold waitDeployFinished in Hsuccess.
      rewrite waitLoop_indexing in Hsuccess; [done|].
      intros j Hj. apply Hall. simpl in Hj. change (length waitTimes) with 7%nat in Hj. lia.
    + exists k. split; [done|]. split; [|done].
      rewrite (waitDeployFinished_first_answer remote deployId k Hk Hbefore Hne)
        in Hsuccess.
      destruct (getDeployStatus (statusReply remote k)) as [answer|err]; [|done].
      simpl in Hsuccess. repeat case_decide; by subst.
  - intros [[deployId Hpost] (k & Hk & Hfin & Hbefore)].
    unfold deploy. rewrite Hpost.
    rewrite (waitDeployFinished_first_answer remote deployId k Hk Hbefore)
      by (rewrite Hfin; discriminate).
    by rewrite Hfin.
Qed.

Lemma deploy_succeeds_iff_finished_in_time_witness :
  (deploy indexedAtThird (mkDeployData "{}" "abc123") noTrace).1
  = Ok {| status := RubixDeployStatusEnum.SUCCESS; error := None |}.
Proof.
  apply (proj2 (deploy_succeeds_iff_finished_in_time indexedAtThird
                  (mkDeployData "{}" "abc123"))).
  split; [by exists "deploy-1"|]. exists 2%nat. split; [lia|]. split; [reflexivity|].
  intros j Hj. assert (j = 0%nat ∨ j = 1%nat) as [-> | ->] by lia; reflexivity.
Defined.

(** *** Results of a breakdown *)

(** *** Deleting the semantics of a project *)

(** [delete(projectId)].  With project id 0 no request is sent and the
    error is [Rubix: Failed to delete semantics: Project ID is required].
    Otherwise one request is sent; the call succeeds exactly when it is
    answered with status 200, and every error it throws has a message that
    starts with [Rubix: Failed to delete semantics: ]. *)
Theorem delete_outcomes (reply : HttpFailure + DeleteResponse) (projectId : Z) :
  (delete reply 0
   = (Throw (mkError "Rubix: Failed to delete semantics: Project ID is required"), []))
  ∧ ((delete reply projectId).1 = Ok tt
     ↔ projectId ≠ 0
       ∧ ∃ response, reply = inr response ∧ responseStatus response = 200)
  ∧ (∀ err, (delete reply projectId).1 = Throw err →
       String.prefix "Rubix: Failed to delete semantics: " (Js.message err) = true)
  ∧ (projectId ≠ 0 → (delete reply projectId).2 = [showZ projectId]).
Proof.
  split_and!.
  - reflexivity.
  - unfold delete. case_bool_decide as Hzero; simpl.
    { split; [done | by intros [? _]]. }
    destruct reply as [failure|response]; simpl.
    { split; [done | by intros [_ (? & ? & _)]]. }
    case_bool_decide as Hstatus; simpl.
    + split; [by eauto | done].
    + split; [done|]. intros [_ (response' & [= <-] & ?)]. done.
  - intros err. unfold delete. case_bool_decide; cbn [fst].
    { by intros [= <-]. }
    destruct reply as [failure|response]; cbn [fst].
    { intros [= <-]. simpl. by destruct (getAIServiceError failure). }
    case_bool_decide; cbn [fst]; [done|]. by intros [= <-].
  - intros Hne. unfold delete. rewrite bool_decide_eq_false_2 by done.
    destruct reply as [failure|response]; simpl; [done|]. by case_bool_decide.
Qed.

End AdaptorMoreProofs.

(** ** The breakdown result, for any body *)

Module AdaptorWireProofs.

Import Adaptor AdaptorWire.

Section Wire.

Context {Number : Type}.
Variable nonzero : Number → bool.
Variable E : WireErrors.t Number.

Lemma map_toStep_Ok (items : list (Json.t Number)) :
  Json.Null ∉ items →
  ∃ steps,
    Json.map toStep items = Ok steps
    ∧ Result.summary <$> steps = Json.prop "summary" <$> items
    ∧ Result.sql <$> steps = Json.prop "sql" <$> items
    ∧ Result.cteName <$> steps = Json.prop "cte_name" <$> items.
Proof.
  induction items as [|a items IH]; intros Hnot.
  - by exists [].
  - apply not_elem_of_cons in Hnot as [Ha Hnot].
    destruct (IH Hnot) as (steps & Hmap & Hsummary & Hsql & Hname).
    assert (Hstep : toStep a = Ok {| Result.summary := Json.prop "summary" a;
                                     Result.sql := Json.prop "sql" a;
                                     Result.cteName := Json.prop "cte_name" a |}).
    { by destruct a. }
    eexists. cbn [Json.map]. rewrite Hstep, Hmap. split; [reflexivity|].
    cbn [fmap list_fmap Result.summary Result.sql Result.cteName].
    by rewrite <- Hsummary, <- Hsql, <- Hname.
Qed.

Lemma map_toStep_Throw (items : list (Json.t Number)) :
  Json.Null ∈ items → ∃ err, Json.map toStep items = Throw err.
Proof.
  induction items as [|a items IH]; intros Hin.
  - by apply elem_of_nil in Hin.
  - apply elem_of_cons in Hin as [<-|Hin]; [by eexists|].
    destruct (IH Hin) as (err & Hmap). cbn [Json.map].
    destruct (toStep a); [rewrite Hmap|]; by eexists.
Qed.

Lemma map_toStep_total (items : list (Json.t Number)) :
  (∃ steps, Json.map toStep items = Ok steps) ↔ Json.Null ∉ items.
Proof.
  split.
  - intros (steps & Hmap) Hin. apply map_toStep_Throw in Hin as (err & Herr).
    congruence.
  - intros Hnot. destruct (map_toStep_Ok items Hnot) as (steps & Hmap & _). eauto.
Qed.

(** [getAskDetailResult], on whatever the request settles with.  A
    rejection is thrown on.  A result is returned exactly for a body that
    is neither [null] nor [undefined], whose status is a string that is
    not empty, whose [response.steps] is an array or falsy (then there are
    no steps), and none of whose steps is [null]: it carries the status
    upper-cased, [type] and [response.description] as they are, one step
    for each step of the body in the same order with [cte_name] as
    [cteName], and the error as a value, which is absent exactly when
    [error.code] is falsy -- a body that reports an error of the AI
    service is not a failure.  Every other body throws; when the status is
    missing, [null] or the empty string, the error is
    [Unknown ask status: ] followed by it. *)
Theorem getAskDetailResult_outcomes (reply : result (Json.Value Number)) :
  (∀ err, reply = Throw err → getAskDetailResult nonzero E reply = Throw err)
  ∧ (∀ body w items,
       reply = Ok (Some body) →
       body ≠ Json.Null →
       Json.prop "status" body = Some (Json.Str w) →
       w ≠ "" →
       Json.chain (Json.chain (Some body) "response") "steps" = Some (Json.Arr items)
       ∨ (Json.truthy nonzero (Json.chain (Json.chain (Some body) "response") "steps") = false
          ∧ items = []) →
       Json.Null ∉ items →
       ∃ r, getAskDetailResult nonzero E reply = Ok r
            ∧ Result.status r = toUpperCase w
            ∧ Result.type r = Json.prop "type" body
            ∧ Result.description (Result.response r)
              = Json.chain (Json.chain (Some body) "response") "description"
            ∧ (Result.summary <$> Result.steps (Result.response r))
              = (Json.prop "summary" <$> items)
            ∧ (Result.sql <$> Result.steps (Result.response r))
              = (Json.prop "sql" <$> items)
            ∧ (Result.cteName <$> Result.steps (Result.response r))
              = (Json.prop "cte_name" <$> items)
            ∧ (Result.error r = None
               ↔ Json.truthy nonzero (Json.chain (Json.chain (Some body) "error") "code")
                 = false))
  ∧ (∀ r, getAskDetailResult nonzero E reply = Ok r →
       ∃ body w items,
         reply = Ok (Some body)
         ∧ body ≠ Json.Null
         ∧ Json.prop "status" body = Some (Json.Str w)
         ∧ w ≠ ""
         ∧ (Json.chain (Json.chain (Some body) "response") "steps" = Some (Json.Arr items)
            ∨ (Json.truthy nonzero (Json.chain (Json.chain (Some body) "response") "steps")
               = false
               ∧ items = []))
         ∧ Json.Null ∉ items)
  ∧ (∀ body,
       reply = Ok (Some body) →
       body ≠ Json.Null →
       (Json.prop "status" body = None →
        getAskDetailResult nonzero E reply
        = Throw (mkError "Unknown ask status: undefined"))
       ∧ (Json.prop "status" body = Some Json.Null →
          getAskDetailResult nonzero E reply
          = Throw (mkError "Unknown ask status: null"))
       ∧ (Json.prop "status" body = Some (Json.Str "") →
          getAskDetailResult nonzero E reply
          = Throw (mkError "Unknown ask status: "))).
Proof.
  split_and!.
  - by intros err ->.
  - intros body w items -> Hbody Hstatus Hw Hsteps Hnot.
    destruct (map_toStep_Ok items Hnot) as (steps & Hmap & Hsummary & Hsql & Hname).
    unfold getAskDetailResult, transformAskDetailResult, transformStatusAndError.
    assert (Hchain : Json.chain (Some body) "status" = Some (Json.Str w)).
    { by destruct body. }
    assert (Htype : (match Some body with
                     | None | Some Json.Null =>
                         Json.typeError "Cannot destructure property 'type' of 'body'"
                     | Some v => Ok (Json.prop "type" v)
                     end : result (Json.Value Number)) = Ok (Json.prop "type" body)).
    { by destruct body. }
    assert (Hup : toUpperCase w ≠ "").
    { intros Hup. apply Hw. by destruct w. }
    assert (Hitems :
      (if Json.truthy nonzero (Json.chain (Json.chain (Some body) "response") "steps")
       then match Json.chain (Json.chain (Some body) "response") "steps" with
            | Some (Json.Arr items) => Ok items
            | _ => Json.typeError "(body?.response?.steps || []).map is not a function"
            end
       else Ok []) = Ok items).
    { destruct Hsteps as [-> | [-> ->]]; reflexivity. }
    rewrite Htype, Hchain.
    cbv zeta.
    rewrite (bool_decide_eq_false_2 _ Hup).
    cbn [mbind result_bind Js.bind mret result_ret].
    rewrite Hitems.
    cbn [mbind result_bind Js.bind].
    rewrite Hmap.
    cbn [mbind result_bind Js.bind].
    eexists.
    split; [reflexivity|].
    cbn [Result.status Result.type Result.response Result.description Result.steps
         Result.error].
    split_and!; try done.
    destruct (Json.chain (Json.chain (Some body) "error") "code") as [c|]; [|done].
    destruct (Json.truthy nonzero (Some c)); simpl; split; done.
  - intros r Hr. destruct reply as [[body|]|err]; try done.
    unfold getAskDetailResult, transformAskDetailResult, transformStatusAndError in Hr.
    assert (Hbody : body ≠ Json.Null).
    { intros ->. discriminate Hr. }
    assert (Hchain : ∀ key, Json.chain (Some body) key = Json.prop key body).
    { intros key. by destruct body. }
    assert (Htype : (match Some body with
                     | None | Some Json.Null =>
                         Json.typeError "Cannot destructure property 'type' of 'body'"
                     | Some v => Ok (Json.prop "type" v)
                     end : result (Json.Value Number)) = Ok (Json.prop "type" body)).
    { by destruct body. }
    rewrite Htype in Hr. cbn [mbind result_bind Js.bind] in Hr.
    rewrite (Hchain "status") in Hr.
    destruct (Json.prop "status" body) as [[| | |w| |]|] eqn:Hstatus; try done.
    cbv zeta in Hr. case_bool_decide as Hup; [done|].
    cbn [mbind result_bind Js.bind] in Hr.
    destruct (Json.chain (Json.chain (Some body) "response") "steps") as [found|] eqn:Hfound.
    + destruct (Json.truthy nonzero (Some found)) eqn:Htruthy.
      * destruct found as [| | | |items|]; try done. cbn [mbind result_bind Js.bind] in Hr.
        exists body, w, items.
        split_and!; [done | done | done | by intros -> | by left |].
        apply map_toStep_total. destruct (Json.map toStep items); [eauto|done].
      * exists body, w, [].
        split_and!; [done | done | done | by intros -> | right; by rewrite Hfound |].
        apply not_elem_of_nil.
    + exists body, w, [].
      split_and!; [done | done | done | by intros -> | right; by rewrite Hfound |].
      apply not_elem_of_nil.
  - intros body -> Hbody.
    unfold getAskDetailResult, transformAskDetailResult, transformStatusAndError.
    assert (Hchain : Json.chain (Some body) "status" = Json.prop "status" body).
    { by destruct body. }
    rewrite Hchain.
    split_and!; intros ->; by destruct body.
Qed.

End Wire.

(** The theorem at a body with a falsy code and falsy steps. *)
Lemma getAskDetailResult_outcomes_witness :
  ∃ r, getAskDetailResult nonzeroZ wireErrors (Ok (Some zeroes)) = Ok r
       ∧ Result.status r = toUpperCase "finished"
       ∧ Result.type r = Json.prop "type" zeroes
       ∧ Result.description (Result.response r)
         = Json.chain (Json.chain (Some zeroes) "response") "description"
       ∧ (Result.summary <$> Result.steps (Result.response r))
         = (Json.prop "summary" <$> [])
       ∧ (Result.sql <$> Result.steps (Result.response r))
         = (Json.prop "sql" <$> [])
       ∧ (Result.cteName <$> Result.steps (Result.response r))
         = (Json.prop "cte_name" <$> [])
       ∧ (Result.error r = None
          ↔ Json.truthy nonzeroZ (Json.chain (Json.chain (Some zeroes) "error") "code")
            = false).
Proof.
  apply (proj1 (proj2 (getAskDetailResult_outcomes nonzeroZ wireErrors (Ok (Some zeroes))))
           zeroes "finished" []).
  - reflexivity.
  - discriminate.
  - reflexivity.
  - discriminate.
  - right. split; reflexivity.
  - apply not_elem_of_nil.
Defined.

(** A [null] body, a [null] step and a status that is a number throw. *)
Lemma getAskDetailResult_type_errors :
  (∃ err, getAskDetailResult nonzeroZ wireErrors (Ok (Some Json.Null)) = Throw err)
  ∧ (∃ err, getAskDetailResult nonzeroZ wireErrors (Ok None) = Throw err)
  ∧ (∃ err, getAskDetailResult nonzeroZ wireErrors (Ok (Some nullStep)) = Throw err)
  ∧ (∃ err, getAskDetailResult nonzeroZ wireErrors (Ok (Some numericStatus)) = Throw err).
Proof. split_and!; by eexists. Qed.

(** *** Bodies of the declared shape

    On the JSON value of a typed body the transformation is the one of
    [Adaptor]: the same error, or the same result. *)

Section Typed.

Context {Number : Type}.
Variable nonzero : Number → bool.
Variable E : WireErrors.t Number.

Lemma lookup_field_eq (key : string) (v : Json.Value Number)
    (props : gmap string (Json.t Number)) :
  props !! key = None → field key v props !! key = v.
Proof.
  intros Hnone. destruct v as [v|]; simpl; [apply lookup_insert_eq | done].
Qed.

Lemma lookup_field_ne (key key' : string) (v : Json.Value Number)
    (props : gmap string (Json.t Number)) :
  key ≠ key' → field key v props !! key' = props !! key'.
Proof.
  intros Hne. destruct v as [v|]; simpl; [by apply lookup_insert_ne | done].
Qed.

Ltac lookup_fields :=
  cbn [Json.prop ofBody ofError ofResponse];
  rewrite ?lookup_field_ne by done;
  try (rewrite lookup_field_eq; [done|]);
  rewrite ?lookup_field_ne by done;
  try apply lookup_empty.

Lemma prop_ofBody (body : Body.t) :
  Json.prop (Number:=Number) "type" (ofBody body) = Json.Str <$> Body.type body
  ∧ Json.prop (Number:=Number) "status" (ofBody body) = Json.Str <$> Body.status body
  ∧ Json.prop (Number:=Number) "error" (ofBody body) = ofError <$> Body.error body
  ∧ Json.prop (Number:=Number) "response" (ofBody body)
    = ofResponse <$> Body.response body.
Proof. split_and!; lookup_fields. Qed.

Lemma prop_ofError (e : Body.WireError) :
  Json.prop (Number:=Number) "code" (ofError e) = Json.Str <$> Body.code e
  ∧ Json.prop (Number:=Number) "message" (ofError e) = Json.Str <$> Body.message e.
Proof. split_and!; lookup_fields. Qed.

Lemma prop_ofResponse (r : Body.WireResponse) :
  Json.prop (Number:=Number) "description" (ofResponse r)
  = Json.Str <$> Body.description r
  ∧ Json.prop (Number:=Number) "steps" (ofResponse r)
    = (λ steps, Json.Arr (ofStep <$> steps)) <$> Body.steps r.
Proof. split_and!; lookup_fields. Qed.

Lemma map_toStep_ofStep (steps : list Body.WireStep) :
  Json.map (toStep (Number:=Number)) (ofStep <$> steps)
  = Ok ((λ step, {| Result.summary := Some (Json.Str (Body.summary step));
                    Result.sql := Some (Json.Str (Body.sql step));
                    Result.cteName := Some (Json.Str (Body.cte_name step)) |})
          <$> steps).
Proof.
  induction steps as [|step steps IH]; [done|].
  cbn [fmap list_fmap Json.map]. fold (fmap (M:=list) (ofStep (Number:=Number))).
  rewrite IH. reflexivity.
Qed.

Lemma getAskDetailResult_typed (body : Body.t) :
  getAskDetailResult nonzero E (Ok (Some (ofBody body)))
  = match Adaptor.getAskDetailResult (typedErrors E) (Ok body) with
    | Ok r => Ok (ofResult r)
    | Throw err => Throw err
    end.
Proof.
  destruct (prop_ofBody body) as (Htype & Hstatus & Herror & Hresponse).
  assert (Hchain : ∀ key, Json.chain (Some (ofBody body)) key
                          = Json.prop (Number:=Number) key (ofBody body)) by done.
  unfold getAskDetailResult, transformAskDetailResult, transformStatusAndError.
  unfold Adaptor.getAskDetailResult, Adaptor.transformAskDetailResult,
    Adaptor.transformStatusAndError.
  rewrite !Hchain, Htype, Hstatus, Herror, Hresponse.
  assert (Hcode : Json.chain (ofError (Number:=Number) <$> Body.error body) "code"
                  = Json.Str <$> (Body.error body ≫= Body.code)).
  { destruct (Body.error body) as [e|]; [apply (prop_ofError e) | done]. }
  assert (Hmessage : Json.chain (ofError (Number:=Number) <$> Body.error body) "message"
                     = Json.Str <$> (Body.error body ≫= Body.message)).
  { destruct (Body.error body) as [e|]; [apply (prop_ofError e) | done]. }
  assert (Hsteps : Json.chain (ofResponse (Number:=Number) <$> Body.response body) "steps"
                   = (λ steps, Json.Arr (ofStep <$> steps))
                       <$> (Body.response body ≫= Body.steps)).
  { destruct (Body.response body) as [r|]; [apply (prop_ofResponse r) | done]. }
  assert (Hdescription :
            Json.chain (ofResponse (Number:=Number) <$> Body.response body) "description"
            = Json.Str <$> (Body.response body ≫= Body.description)).
  { destruct (Body.response body) as [r|]; [apply (prop_ofResponse r) | done]. }
  rewrite Hcode, Hmessage, Hsteps, Hdescription.
  assert (Hsame : ∀ c k : string, bool_decide (Some c = Some k) = bool_decide (c = k)).
  { intros c k. apply bool_decide_ext. split; [by intros [= ->] | by intros ->]. }
  unfold ofBody, ofResult. cbn [mbind result_bind Js.bind].
  destruct (Body.status body) as [[|a w]|]; [done| |done].
  cbn [fmap option_fmap option_map toUpperCase truthy default].
  rewrite !bool_decide_eq_false_2 by done.
  cbn [negb mbind result_bind Js.bind].
  destruct (Body.error body ≫= Body.code) as [c|];
    destruct (Body.response body ≫= Body.steps) as [steps|];
    cbn [fmap option_fmap option_map Json.truthy Json.isString truthy default id
         mbind result_bind Js.bind Json.map
         AskDetailResult.type AskDetailResult.status AskDetailResult.error
         AskDetailResult.response AskDetailResult.description AskDetailResult.steps
         typedErrors Errors.create Errors.NO_RELEVANT_SQL
         Errors.AI_SERVICE_UNDEFINED_ERROR list_fmap];
    rewrite ?Hsame;
    try (change (list_fmap Body.WireStep (Json.t Number) ofStep steps)
           with (ofStep (Number:=Number) <$> steps);
         rewrite map_toStep_ofStep; cbn [Js.bind]; rewrite <- list_fmap_compose);
    try (destruct (negb (bool_decide (c = "")));
         destruct (bool_decide (c = WireErrors.NO_RELEVANT_SQL E)
                   || bool_decide (c = WireErrors.AI_SERVICE_UNDEFINED_ERROR E)));
    reflexivity.
Qed.

End Typed.

End AdaptorWireProofs.
